(** * AttachmentCarousel: the gesture-to-page state machine

    A shallow embedding of
    [src/components/Attachments/AttachmentCarousel/index.tsx]: the React
    state, the shared values and the refs of the component become one record,
    every handler of the component becomes a function on that record, and the
    calls that leave the component (host callbacks, keyboard, gesture state
    manager) are appended to a trace kept in the record.

    JavaScript numbers are binary64. The finite ones are rationals, and on
    them comparisons, [Math.abs] and literals are exact, so pixels,
    velocities and zoom are rationals here; multiplication, subtraction and
    division round, and the model leaves their results uninterpreted (see
    [JS.Runtime]). NaN and the infinities are not modelled. Page indices and
    page deltas are integers. *)

From Stdlib Require Import ZArith QArith Qabs List String Bool Lia Lqa.
Import ListNotations.

(** ** JavaScript helpers *)

Module JS.

(** [x < y] on numbers. *)
Definition lt (x y : Q) : bool := negb (Qle_bool y x).

(** [x === y] on numbers. *)
Definition eq (x y : Q) : bool := Qeq_bool x y.

(** [xs[i]] for an array and an integer index: [undefined] (here [None])
    outside of [0 .. length-1]. *)
Definition index {A : Type} (xs : list A) (i : Z) : option A :=
  if (i <? 0)%Z then None else nth_error xs (Z.to_nat i).

(** [xs.findIndex(f)]: the first position whose element satisfies [f],
    and [-1] when there is none. *)
Fixpoint findIndexFrom {A : Type} (f : A -> bool) (xs : list A) (i : Z) : Z :=
  match xs with
  | [] => (-1)%Z
  | x :: rest => if f x then i else findIndexFrom f rest (i + 1)%Z
  end.

Definition findIndex {A : Type} (f : A -> bool) (xs : list A) : Z :=
  findIndexFrom f xs 0%Z.

(** Truthiness of a value that is an object or [undefined]/[null]. *)
Definition truthy {A : Type} (o : option A) : bool :=
  match o with Some _ => true | None => false end.

(** [xs.slice(-1)[0]]: the last element, [undefined] on an empty array. *)
Definition lastElement {A : Type} (xs : list A) : option A :=
  match rev xs with [] => None | x :: _ => Some x end.

(** What the JavaScript runtime supplies. The three arithmetic operations
    return the binary64 result, which is the exact one only when that is
    representable: they carry no law here, so whatever is proved holds for
    every rounding. [contentOf] gives, for the reference of an object, the
    content that a deep comparison reads. *)
Class Runtime : Type := {
  mul : Q -> Q -> Q;       (* a * b *)
  sub : Q -> Q -> Q;       (* a - b *)
  div : Q -> Q -> Q;       (* a / b *)
  contentOf : positive -> string
}.

End JS.

(** ** Data model *)

(** Modelled from the spec: the type [AttachmentSource] is declared in
    [@components/Attachments/types], which is not among the sources. A source
    is a locator (string or number, as [extractItemKey] tests) or some other
    object, known by its reference: [===] compares references, a deep
    comparison compares what [JS.contentOf] finds behind them. *)
Inductive AttachmentSource : Type :=
| SourceString (s : string)
| SourceNumber (n : Z)
| SourceObject (ref : positive).

(** Modelled from the spec: the type [Attachment] is declared in
    [@components/Attachments/types], which is not among the sources. The
    component reads [source] and [reportActionID]; the display metadata (name,
    type) only matters to structural comparison. *)
Record Attachment : Type := {
  source : AttachmentSource;
  reportActionID : option string;
  displayName : string
}.

Definition AttachmentSource_eq_dec (a b : AttachmentSource) : {a = b} + {a <> b}.
Proof.
  decide equality; [apply string_dec | apply Z.eq_dec | apply Pos.eq_dec].
Defined.

(** [a === b] on attachment sources. *)
Definition sourceEq (a b : AttachmentSource) : bool :=
  if AttachmentSource_eq_dec a b then true else false.

(** lodash's [isEqual] on two sources: strings and numbers by value, objects
    by content. *)
Definition sourceIsEqual `{JS.Runtime} (a b : AttachmentSource) : bool :=
  match a, b with
  | SourceString s, SourceString t => String.eqb s t
  | SourceNumber n, SourceNumber m => (n =? m)%Z
  | SourceObject r, SourceObject r' => String.eqb (JS.contentOf r) (JS.contentOf r')
  | _, _ => false
  end.

(** lodash's [isEqual] on two attachments: property by property. *)
Definition attachmentIsEqual `{JS.Runtime} (a b : Attachment) : bool :=
  sourceIsEqual (source a) (source b)
  && match reportActionID a, reportActionID b with
     | Some i, Some j => String.eqb i j
     | None, None => true
     | _, _ => false
     end
  && String.eqb (displayName a) (displayName b).

(** lodash's [isEqual] on two attachment arrays: same length and equal
    elements, position by position. *)
Fixpoint isEqual `{JS.Runtime} (xs ys : list Attachment) : bool :=
  match xs, ys with
  | [], [] => true
  | a :: xs', b :: ys' => attachmentIsEqual a b && isEqual xs' ys'
  | _, _ => false
  end.

(** Modelled from the spec: [UpdatePageProps] is declared in [./types], which
    is not among the sources; an entry of [viewableItems] is React Native's
    [ViewToken], of which the component reads [item] and [index]
    ([number | null]). *)
Record ViewToken : Type := {
  item : Attachment;
  index : option Z
}.

(** A recorded touch point. *)
Record Point : Type := { x : Q; y : Q }.

(** The part of a touch event that [onTouchesMove] reads. *)
Record GestureTouchEvent : Type := { allTouches : list Point }.

(** The part of a pan update event that [onUpdate] reads. *)
Record PanUpdateEvent : Type := {
  evt_translationX : Q;
  evt_translationY : Q;
  evt_velocityX : Q;
  evt_velocityY : Q
}.

(** The two easing curves handed to [withTiming]. *)
Inductive EasingFunction : Type :=
| EasingInOutQuad   (* Easing.inOut(Easing.quad) *)
| EasingOutQuad.    (* Easing.out(Easing.quad) *)

(** The completion callback handed to [withTiming]. Both step operations pass
    the same closure, [() => { setPage(nextIndex); isPagerScrolling.value =
    false; }], which captures [nextIndex] and takes no argument. *)
Inductive Callback : Type :=
| CommitPage (nextIndex : Z).

(** A [withTiming(toValue, {duration, easing}, callback)] animation. The
    [reduceMotion] setting is not modelled: animations run in full. *)
Record TimingAnimation : Type := {
  toValue : Q;
  duration : Z;
  easing : EasingFunction;
  callback : Callback
}.

(** Calls that leave the component. *)
Inductive Effect : Type :=
| DismissModal                                (* Navigation.dismissModal() *)
| SetDownloadButtonVisibility (visible : bool)
| OnNavigate (attachment : Attachment)
| KeyboardDismiss                             (* Keyboard.dismiss() *)
| StateActivate.                              (* state.activate() *)

(** The props that the handlers read. The two callbacks are optional; only
    their presence is recorded, their calls go to the trace. *)
Module Props.
Record t : Type := {
  source : AttachmentSource;
  onNavigate : bool;
  setDownloadButtonVisibility : bool
}.
End Props.

(** The state of one mounted carousel. *)
Record Carousel : Type := {
  (* useState *)
  containerWidth : Q;
  page : Z;
  attachments : list Attachment;
  activeSource : option AttachmentSource;
  shouldShowArrows : bool;              (* from useCarouselArrows *)
  (* the shared value offsetX, the animation assigned to it, and the
     callbacks of superseded animations that the animator has yet to call *)
  offsetX : Q;
  offsetXAnimation : option TimingAnimation;
  cancelledCallbacks : list Callback;
  (* the other shared values and refs *)
  isPagerScrolling : bool;
  isScrollEnabled : bool;
  scale : Q;
  firstTouch : option Point;
  secondTouch : option Point;
  panGestureActive : bool;
  translationX : Q;
  translationY : Q;
  velocityX : Q;
  velocityY : Q;
  (* refs owned by others *)
  isFullScreen : bool;                  (* isFullScreenRef.current *)
  scrollRef : bool;                     (* scrollRef.current is not null *)
  (* the calls made so far, oldest first *)
  effects : list Effect
}.

(** Field updates. *)
Definition set_containerWidth v (s : Carousel) : Carousel :=
  {| containerWidth := v; page := page s; attachments := attachments s; activeSource :=
     activeSource s; shouldShowArrows := shouldShowArrows s; offsetX := offsetX s;
     offsetXAnimation := offsetXAnimation s; cancelledCallbacks := cancelledCallbacks s;
     isPagerScrolling := isPagerScrolling s; isScrollEnabled := isScrollEnabled s; scale := scale
     s; firstTouch := firstTouch s; secondTouch := secondTouch s; panGestureActive :=
     panGestureActive s; translationX := translationX s; translationY := translationY s;
     velocityX := velocityX s; velocityY := velocityY s; isFullScreen := isFullScreen s;
     scrollRef := scrollRef s; effects := effects s |}.

Definition set_isFullScreen v (s : Carousel) : Carousel :=
  {| containerWidth := containerWidth s; page := page s; attachments := attachments s;
     activeSource := activeSource s; shouldShowArrows := shouldShowArrows s; offsetX := offsetX
     s; offsetXAnimation := offsetXAnimation s; cancelledCallbacks := cancelledCallbacks s;
     isPagerScrolling := isPagerScrolling s; isScrollEnabled := isScrollEnabled s; scale := scale
     s; firstTouch := firstTouch s; secondTouch := secondTouch s; panGestureActive :=
     panGestureActive s; translationX := translationX s; translationY := translationY s;
     velocityX := velocityX s; velocityY := velocityY s; isFullScreen := v; scrollRef :=
     scrollRef s; effects := effects s |}.

Definition set_scrollRef v (s : Carousel) : Carousel :=
  {| containerWidth := containerWidth s; page := page s; attachments := attachments s;
     activeSource := activeSource s; shouldShowArrows := shouldShowArrows s; offsetX := offsetX
     s; offsetXAnimation := offsetXAnimation s; cancelledCallbacks := cancelledCallbacks s;
     isPagerScrolling := isPagerScrolling s; isScrollEnabled := isScrollEnabled s; scale := scale
     s; firstTouch := firstTouch s; secondTouch := secondTouch s; panGestureActive :=
     panGestureActive s; translationX := translationX s; translationY := translationY s;
     velocityX := velocityX s; velocityY := velocityY s; isFullScreen := isFullScreen s;
     scrollRef := v; effects := effects s |}.

Definition set_page v (s : Carousel) : Carousel :=
  {| containerWidth := containerWidth s; page := v; attachments := attachments s; activeSource :=
     activeSource s; shouldShowArrows := shouldShowArrows s; offsetX := offsetX s;
     offsetXAnimation := offsetXAnimation s; cancelledCallbacks := cancelledCallbacks s;
     isPagerScrolling := isPagerScrolling s; isScrollEnabled := isScrollEnabled s; scale := scale
     s; firstTouch := firstTouch s; secondTouch := secondTouch s; panGestureActive :=
     panGestureActive s; translationX := translationX s; translationY := translationY s;
     velocityX := velocityX s; velocityY := velocityY s; isFullScreen := isFullScreen s;
     scrollRef := scrollRef s; effects := effects s |}.

Definition set_attachments v (s : Carousel) : Carousel :=
  {| containerWidth := containerWidth s; page := page s; attachments := v; activeSource :=
     activeSource s; shouldShowArrows := shouldShowArrows s; offsetX := offsetX s;
     offsetXAnimation := offsetXAnimation s; cancelledCallbacks := cancelledCallbacks s;
     isPagerScrolling := isPagerScrolling s; isScrollEnabled := isScrollEnabled s; scale := scale
     s; firstTouch := firstTouch s; secondTouch := secondTouch s; panGestureActive :=
     panGestureActive s; translationX := translationX s; translationY := translationY s;
     velocityX := velocityX s; velocityY := velocityY s; isFullScreen := isFullScreen s;
     scrollRef := scrollRef s; effects := effects s |}.

Definition set_activeSource v (s : Carousel) : Carousel :=
  {| containerWidth := containerWidth s; page := page s; attachments := attachments s;
     activeSource := v; shouldShowArrows := shouldShowArrows s; offsetX := offsetX s;
     offsetXAnimation := offsetXAnimation s; cancelledCallbacks := cancelledCallbacks s;
     isPagerScrolling := isPagerScrolling s; isScrollEnabled := isScrollEnabled s; scale := scale
     s; firstTouch := firstTouch s; secondTouch := secondTouch s; panGestureActive :=
     panGestureActive s; translationX := translationX s; translationY := translationY s;
     velocityX := velocityX s; velocityY := velocityY s; isFullScreen := isFullScreen s;
     scrollRef := scrollRef s; effects := effects s |}.

Definition set_shouldShowArrows v (s : Carousel) : Carousel :=
  {| containerWidth := containerWidth s; page := page s; attachments := attachments s;
     activeSource := activeSource s; shouldShowArrows := v; offsetX := offsetX s;
     offsetXAnimation := offsetXAnimation s; cancelledCallbacks := cancelledCallbacks s;
     isPagerScrolling := isPagerScrolling s; isScrollEnabled := isScrollEnabled s; scale := scale
     s; firstTouch := firstTouch s; secondTouch := secondTouch s; panGestureActive :=
     panGestureActive s; translationX := translationX s; translationY := translationY s;
     velocityX := velocityX s; velocityY := velocityY s; isFullScreen := isFullScreen s;
     scrollRef := scrollRef s; effects := effects s |}.

Definition set_offsetX v (s : Carousel) : Carousel :=
  {| containerWidth := containerWidth s; page := page s; attachments := attachments s;
     activeSource := activeSource s; shouldShowArrows := shouldShowArrows s; offsetX := v;
     offsetXAnimation := offsetXAnimation s; cancelledCallbacks := cancelledCallbacks s;
     isPagerScrolling := isPagerScrolling s; isScrollEnabled := isScrollEnabled s; scale := scale
     s; firstTouch := firstTouch s; secondTouch := secondTouch s; panGestureActive :=
     panGestureActive s; translationX := translationX s; translationY := translationY s;
     velocityX := velocityX s; velocityY := velocityY s; isFullScreen := isFullScreen s;
     scrollRef := scrollRef s; effects := effects s |}.

Definition set_offsetXAnimation v (s : Carousel) : Carousel :=
  {| containerWidth := containerWidth s; page := page s; attachments := attachments s;
     activeSource := activeSource s; shouldShowArrows := shouldShowArrows s; offsetX := offsetX
     s; offsetXAnimation := v; cancelledCallbacks := cancelledCallbacks s; isPagerScrolling :=
     isPagerScrolling s; isScrollEnabled := isScrollEnabled s; scale := scale s; firstTouch :=
     firstTouch s; secondTouch := secondTouch s; panGestureActive := panGestureActive s;
     translationX := translationX s; translationY := translationY s; velocityX := velocityX s;
     velocityY := velocityY s; isFullScreen := isFullScreen s; scrollRef := scrollRef s; effects
     := effects s |}.

Definition set_cancelledCallbacks v (s : Carousel) : Carousel :=
  {| containerWidth := containerWidth s; page := page s; attachments := attachments s;
     activeSource := activeSource s; shouldShowArrows := shouldShowArrows s; offsetX := offsetX
     s; offsetXAnimation := offsetXAnimation s; cancelledCallbacks := v; isPagerScrolling :=
     isPagerScrolling s; isScrollEnabled := isScrollEnabled s; scale := scale s; firstTouch :=
     firstTouch s; secondTouch := secondTouch s; panGestureActive := panGestureActive s;
     translationX := translationX s; translationY := translationY s; velocityX := velocityX s;
     velocityY := velocityY s; isFullScreen := isFullScreen s; scrollRef := scrollRef s; effects
     := effects s |}.

Definition set_isPagerScrolling v (s : Carousel) : Carousel :=
  {| containerWidth := containerWidth s; page := page s; attachments := attachments s;
     activeSource := activeSource s; shouldShowArrows := shouldShowArrows s; offsetX := offsetX
     s; offsetXAnimation := offsetXAnimation s; cancelledCallbacks := cancelledCallbacks s;
     isPagerScrolling := v; isScrollEnabled := isScrollEnabled s; scale := scale s; firstTouch :=
     firstTouch s; secondTouch := secondTouch s; panGestureActive := panGestureActive s;
     translationX := translationX s; translationY := translationY s; velocityX := velocityX s;
     velocityY := velocityY s; isFullScreen := isFullScreen s; scrollRef := scrollRef s; effects
     := effects s |}.

Definition set_isScrollEnabled v (s : Carousel) : Carousel :=
  {| containerWidth := containerWidth s; page := page s; attachments := attachments s;
     activeSource := activeSource s; shouldShowArrows := shouldShowArrows s; offsetX := offsetX
     s; offsetXAnimation := offsetXAnimation s; cancelledCallbacks := cancelledCallbacks s;
     isPagerScrolling := isPagerScrolling s; isScrollEnabled := v; scale := scale s; firstTouch
     := firstTouch s; secondTouch := secondTouch s; panGestureActive := panGestureActive s;
     translationX := translationX s; translationY := translationY s; velocityX := velocityX s;
     velocityY := velocityY s; isFullScreen := isFullScreen s; scrollRef := scrollRef s; effects
     := effects s |}.

Definition set_scale v (s : Carousel) : Carousel :=
  {| containerWidth := containerWidth s; page := page s; attachments := attachments s;
     activeSource := activeSource s; shouldShowArrows := shouldShowArrows s; offsetX := offsetX
     s; offsetXAnimation := offsetXAnimation s; cancelledCallbacks := cancelledCallbacks s;
     isPagerScrolling := isPagerScrolling s; isScrollEnabled := isScrollEnabled s; scale := v;
     firstTouch := firstTouch s; secondTouch := secondTouch s; panGestureActive :=
     panGestureActive s; translationX := translationX s; translationY := translationY s;
     velocityX := velocityX s; velocityY := velocityY s; isFullScreen := isFullScreen s;
     scrollRef := scrollRef s; effects := effects s |}.

Definition set_firstTouch v (s : Carousel) : Carousel :=
  {| containerWidth := containerWidth s; page := page s; attachments := attachments s;
     activeSource := activeSource s; shouldShowArrows := shouldShowArrows s; offsetX := offsetX
     s; offsetXAnimation := offsetXAnimation s; cancelledCallbacks := cancelledCallbacks s;
     isPagerScrolling := isPagerScrolling s; isScrollEnabled := isScrollEnabled s; scale := scale
     s; firstTouch := v; secondTouch := secondTouch s; panGestureActive := panGestureActive s;
     translationX := translationX s; translationY := translationY s; velocityX := velocityX s;
     velocityY := velocityY s; isFullScreen := isFullScreen s; scrollRef := scrollRef s; effects
     := effects s |}.

Definition set_secondTouch v (s : Carousel) : Carousel :=
  {| containerWidth := containerWidth s; page := page s; attachments := attachments s;
     activeSource := activeSource s; shouldShowArrows := shouldShowArrows s; offsetX := offsetX
     s; offsetXAnimation := offsetXAnimation s; cancelledCallbacks := cancelledCallbacks s;
     isPagerScrolling := isPagerScrolling s; isScrollEnabled := isScrollEnabled s; scale := scale
     s; firstTouch := firstTouch s; secondTouch := v; panGestureActive := panGestureActive s;
     translationX := translationX s; translationY := translationY s; velocityX := velocityX s;
     velocityY := velocityY s; isFullScreen := isFullScreen s; scrollRef := scrollRef s; effects
     := effects s |}.

Definition set_panGestureActive v (s : Carousel) : Carousel :=
  {| containerWidth := containerWidth s; page := page s; attachments := attachments s;
     activeSource := activeSource s; shouldShowArrows := shouldShowArrows s; offsetX := offsetX
     s; offsetXAnimation := offsetXAnimation s; cancelledCallbacks := cancelledCallbacks s;
     isPagerScrolling := isPagerScrolling s; isScrollEnabled := isScrollEnabled s; scale := scale
     s; firstTouch := firstTouch s; secondTouch := secondTouch s; panGestureActive := v;
     translationX := translationX s; translationY := translationY s; velocityX := velocityX s;
     velocityY := velocityY s; isFullScreen := isFullScreen s; scrollRef := scrollRef s; effects
     := effects s |}.

Definition set_translationX v (s : Carousel) : Carousel :=
  {| containerWidth := containerWidth s; page := page s; attachments := attachments s;
     activeSource := activeSource s; shouldShowArrows := shouldShowArrows s; offsetX := offsetX
     s; offsetXAnimation := offsetXAnimation s; cancelledCallbacks := cancelledCallbacks s;
     isPagerScrolling := isPagerScrolling s; isScrollEnabled := isScrollEnabled s; scale := scale
     s; firstTouch := firstTouch s; secondTouch := secondTouch s; panGestureActive :=
     panGestureActive s; translationX := v; translationY := translationY s; velocityX :=
     velocityX s; velocityY := velocityY s; isFullScreen := isFullScreen s; scrollRef :=
     scrollRef s; effects := effects s |}.

Definition set_translationY v (s : Carousel) : Carousel :=
  {| containerWidth := containerWidth s; page := page s; attachments := attachments s;
     activeSource := activeSource s; shouldShowArrows := shouldShowArrows s; offsetX := offsetX
     s; offsetXAnimation := offsetXAnimation s; cancelledCallbacks := cancelledCallbacks s;
     isPagerScrolling := isPagerScrolling s; isScrollEnabled := isScrollEnabled s; scale := scale
     s; firstTouch := firstTouch s; secondTouch := secondTouch s; panGestureActive :=
     panGestureActive s; translationX := translationX s; translationY := v; velocityX :=
     velocityX s; velocityY := velocityY s; isFullScreen := isFullScreen s; scrollRef :=
     scrollRef s; effects := effects s |}.

Definition set_velocityX v (s : Carousel) : Carousel :=
  {| containerWidth := containerWidth s; page := page s; attachments := attachments s;
     activeSource := activeSource s; shouldShowArrows := shouldShowArrows s; offsetX := offsetX
     s; offsetXAnimation := offsetXAnimation s; cancelledCallbacks := cancelledCallbacks s;
     isPagerScrolling := isPagerScrolling s; isScrollEnabled := isScrollEnabled s; scale := scale
     s; firstTouch := firstTouch s; secondTouch := secondTouch s; panGestureActive :=
     panGestureActive s; translationX := translationX s; translationY := translationY s;
     velocityX := v; velocityY := velocityY s; isFullScreen := isFullScreen s; scrollRef :=
     scrollRef s; effects := effects s |}.

Definition set_velocityY v (s : Carousel) : Carousel :=
  {| containerWidth := containerWidth s; page := page s; attachments := attachments s;
     activeSource := activeSource s; shouldShowArrows := shouldShowArrows s; offsetX := offsetX
     s; offsetXAnimation := offsetXAnimation s; cancelledCallbacks := cancelledCallbacks s;
     isPagerScrolling := isPagerScrolling s; isScrollEnabled := isScrollEnabled s; scale := scale
     s; firstTouch := firstTouch s; secondTouch := secondTouch s; panGestureActive :=
     panGestureActive s; translationX := translationX s; translationY := translationY s;
     velocityX := velocityX s; velocityY := v; isFullScreen := isFullScreen s; scrollRef :=
     scrollRef s; effects := effects s |}.

Definition set_effects v (s : Carousel) : Carousel :=
  {| containerWidth := containerWidth s; page := page s; attachments := attachments s;
     activeSource := activeSource s; shouldShowArrows := shouldShowArrows s; offsetX := offsetX
     s; offsetXAnimation := offsetXAnimation s; cancelledCallbacks := cancelledCallbacks s;
     isPagerScrolling := isPagerScrolling s; isScrollEnabled := isScrollEnabled s; scale := scale
     s; firstTouch := firstTouch s; secondTouch := secondTouch s; panGestureActive :=
     panGestureActive s; translationX := translationX s; translationY := translationY s;
     velocityX := velocityX s; velocityY := velocityY s; isFullScreen := isFullScreen s;
     scrollRef := scrollRef s; effects := v |}.

Definition emit (e : Effect) (s : Carousel) : Carousel :=
  set_effects (effects s ++ [e]) s.

(** ** The animator (react-native-reanimated)

    The library is not part of the repository. What the component relies on:
    assigning to [offsetX.value], a number or an animation, cancels the
    animation that was running on it; the callback of a [withTiming]
    animation is called when the animation finishes, and also when it is
    cancelled (then with [finished = false]). *)

Definition cancelAnimation (s : Carousel) : Carousel :=
  match offsetXAnimation s with
  | Some a =>
      set_cancelledCallbacks (cancelledCallbacks s ++ [callback a])
        (set_offsetXAnimation None s)
  | None => s
  end.

(** [offsetX.value = v] *)
Definition assignOffsetX (v : Q) (s : Carousel) : Carousel :=
  set_offsetX v (cancelAnimation s).

(** [offsetX.value = withTiming(...)] *)
Definition animateOffsetX (a : TimingAnimation) (s : Carousel) : Carousel :=
  set_offsetXAnimation (Some a) (cancelAnimation s).

(** The body of the completion callback; it takes no [finished] argument. *)
Definition runCallback (c : Callback) (s : Carousel) : Carousel :=
  match c with
  | CommitPage nextIndex => set_isPagerScrolling false (set_page nextIndex s)
  end.

(** The running animation reaches its target: the value is the target and the
    callback is called. *)
Definition animationFinished (s : Carousel) : Carousel :=
  match offsetXAnimation s with
  | Some a => runCallback (callback a) (set_offsetX (toValue a) (set_offsetXAnimation None s))
  | None => s
  end.

(** The animator calls the callback of the oldest superseded animation. *)
Definition animationCancelled (s : Carousel) : Carousel :=
  match cancelledCallbacks s with
  | c :: rest => runCallback c (set_cancelledCallbacks rest s)
  | [] => s
  end.

(** ** The handlers of the component *)

(** [compareImage], line 50. *)
Definition compareImage (p : Props.t) (attachment : Attachment) : bool :=
  sourceEq (source attachment) (Props.source p).

(** The attachment-derivation effect, lines 70-97. [attachmentsFromReport] is
    the result of [extractAttachmentsFromReport], which is not among the
    sources. *)
Definition attachmentsEffect `{JS.Runtime} (p : Props.t) (attachmentsFromReport : list Attachment)
    (s : Carousel) : Carousel :=
  if isEqual (attachments s) attachmentsFromReport then s
  else
    let initialPage := JS.findIndex (compareImage p) attachmentsFromReport in
    if (initialPage =? -1)%Z && JS.truthy (find (compareImage p) (attachments s))
    then emit DismissModal s
    else
      let s1 := set_attachments attachmentsFromReport (set_page initialPage s) in
      let s2 :=
        if Props.setDownloadButtonVisibility p
        then emit (SetDownloadButtonVisibility (negb (initialPage =? -1)%Z)) s1
        else s1 in
      match JS.index attachmentsFromReport initialPage with
      | Some a => if Props.onNavigate p then emit (OnNavigate a) s2 else s2
      | None => s2
      end.

(** [updatePage], lines 100-126. *)
Definition updatePage (p : Props.t) (viewableItems : list ViewToken) (s : Carousel)
    : Carousel :=
  if isFullScreen s then s
  else
    let s1 := emit KeyboardDismiss s in
    match viewableItems with
    | [] => set_activeSource None s1
    | entry :: _ =>
        let s2 :=
          match index entry with
          | Some i => set_activeSource (Some (source (item entry))) (set_page i s1)
          | None => s1
          end in
        if Props.onNavigate p then emit (OnNavigate (item entry)) s2 else s2
    end.

(** [cycleThroughAttachments], lines 130-158. *)
Definition cycleThroughAttachments `{JS.Runtime} (deltaSlide : Z) (s : Carousel) : Carousel :=
  if isFullScreen s then s
  else
    let nextIndex := (page s + deltaSlide)%Z in
    let nextItem := JS.index (attachments s) nextIndex in
    if negb (JS.truthy nextItem) || negb (scrollRef s) then s
    else
      let s1 := assignOffsetX (JS.mul (containerWidth s) (inject_Z (page s))) s in
      animateOffsetX
        {| toValue := JS.mul (containerWidth s) (inject_Z nextIndex);
           duration := 300;
           easing := EasingInOutQuad;
           callback := CommitPage nextIndex |} s1.

(** [gotoAttachments], lines 160-187. *)
Definition gotoAttachments `{JS.Runtime} (deltaSlide : Z) (s : Carousel) : Carousel :=
  if isFullScreen s then s
  else
    let nextIndex := (page s + deltaSlide)%Z in
    let nextItem := JS.index (attachments s) nextIndex in
    if negb (JS.truthy nextItem) || negb (scrollRef s) then s
    else
      animateOffsetX
        {| toValue := JS.mul (containerWidth s) (inject_Z nextIndex);
           duration := 300;
           easing := EasingOutQuad;
           callback := CommitPage nextIndex |} s.

(** [toggleArrows], lines 215-225. *)
Definition toggleArrows (showArrows : option bool) (s : Carousel) : Carousel :=
  match showArrows with
  | None => set_shouldShowArrows (negb (shouldShowArrows s)) s
  | Some b => set_shouldShowArrows b s
  end.

(** [handleTap], lines 239-245. *)
Definition handleTap (s : Carousel) : Carousel :=
  if negb (isScrollEnabled s) then s else toggleArrows None s.

(** [handleScaleChange], lines 247-264; the context hands it to the item
    viewers as [onScaleChanged]. *)
Definition handleScaleChange (canUseTouchScreen : bool) (newScale : Q) (s : Carousel)
    : Carousel :=
  if JS.eq newScale (scale s) then s
  else
    let s1 := set_scale newScale s in
    let newIsScrollEnabled := JS.eq newScale 1 && canUseTouchScreen in
    if Bool.eqb (isScrollEnabled s1) newIsScrollEnabled then s1
    else toggleArrows (Some newIsScrollEnabled) (set_isScrollEnabled newIsScrollEnabled s1).

(** [panGesture.onTouchesMove], lines 276-321. The result is [None] when the
    handler throws: reading [.x] of [evt.allTouches.slice(-1)[0]] on an event
    without touches. *)
Definition onTouchesMove `{JS.Runtime} (evt : GestureTouchEvent) (s : Carousel) : option Carousel :=
  if isPagerScrolling s then Some s
  else if panGestureActive s then Some s
  else if JS.truthy (firstTouch s) && JS.truthy (secondTouch s) then Some s
  else if JS.lt (scale s) 1 then Some (emit StateActivate (set_panGestureActive true s))
  else
    let sampled :=
      match firstTouch s, secondTouch s with
      | None, _ =>
          option_map (fun t => set_firstTouch (Some {| x := x t; y := y t |}) s)
                     (JS.lastElement (allTouches evt))
      | Some _, None =>
          option_map (fun t => set_secondTouch (Some {| x := x t; y := y t |}) s)
                     (JS.lastElement (allTouches evt))
      | Some _, Some _ => Some s
      end in
    match sampled with
    | None => None
    | Some s1 =>
        match firstTouch s1, secondTouch s1 with
        | Some first, Some second =>
            if JS.eq (scale s1) 1 then
              let deltaX := Qabs (JS.sub (x second) (x first)) in
              let deltaY := Qabs (JS.sub (y second) (y first)) in
              if JS.lt deltaY deltaX
              then Some (emit StateActivate (set_panGestureActive true s1))
              else Some s1
            else Some s1
        | _, _ => Some s1
        end
    end.

(** [panGesture.onUpdate], lines 322-345. *)
Definition onUpdate `{JS.Runtime} (evt : PanUpdateEvent) (s : Carousel) : Carousel :=
  if negb (panGestureActive s) then s
  else if JS.eq (containerWidth s) 0 then s
  else if negb (scrollRef s) then s
  else
    let offset :=
      JS.sub (JS.mul (containerWidth s) (inject_Z (page s))) (evt_translationX evt) in
    if JS.lt offset 0
       || JS.lt (JS.mul (containerWidth s)
                   (inject_Z (Z.of_nat (List.length (attachments s)) - 1)))
                offset
    then s
    else
      let s1 := set_isPagerScrolling true (assignOffsetX offset s) in
      set_velocityY (evt_velocityY evt)
        (set_velocityX (evt_velocityX evt)
           (set_translationY (evt_translationY evt)
              (set_translationX (evt_translationX evt) s1))).

(** The tail of [onTouchesUp], lines 367-371. *)
Definition resetPan (s : Carousel) : Carousel :=
  set_velocityY 0 (set_velocityX 0 (set_translationY 0 (set_translationX 0
    (set_panGestureActive false s)))).

(** [panGesture.onTouchesUp], lines 346-372. *)
Definition onTouchesUp `{JS.Runtime} (s : Carousel) : Carousel :=
  let s1 := set_secondTouch None (set_firstTouch None s) in
  if negb (panGestureActive s1) then s1
  else
    let s2 :=
      if isPagerScrolling s1 then
        if JS.lt (JS.div (containerWidth s1) 3) (Qabs (translationX s1))
           || JS.lt 100 (Qabs (velocityX s1))
        then
          if JS.lt 0 (translationX s1) then gotoAttachments (-1) s1
          else gotoAttachments 1 s1
        else gotoAttachments 0 s1
      else s1 in
    resetPan s2.

(** [onLayout] of the container, lines 392-397. [width] is the measured
    width after [PixelRatio.roundToNearestPixel]. *)
Definition onLayout (width : Q) (s : Carousel) : Carousel :=
  if isFullScreen s then s else set_containerWidth width s.

(** React attaches [scrollRef] when the list is rendered, lines 401 and 421:
    the page is found and the container has been measured. *)
Definition attachScrollRef (s : Carousel) : Carousel :=
  if negb (page s =? -1)%Z && JS.lt 0 (containerWidth s)
  then set_scrollRef true s
  else set_scrollRef false s.

(** The state of the first render, lines 44-68. The initial arrow visibility
    comes from [useCarouselArrows], which is not among the sources. *)
Definition initialState (p : Props.t) (canUseTouchScreen arrows : bool) : Carousel :=
  {| containerWidth := 0;
     page := 0;
     attachments := [];
     activeSource := Some (Props.source p);
     shouldShowArrows := arrows;
     offsetX := 0;
     offsetXAnimation := None;
     cancelledCallbacks := [];
     isPagerScrolling := false;
     isScrollEnabled := canUseTouchScreen;
     scale := 1;
     firstTouch := None;
     secondTouch := None;
     panGestureActive := false;
     translationX := 0;
     translationY := 0;
     velocityX := 0;
     velocityY := 0;
     isFullScreen := false;
     scrollRef := false;
     effects := [] |}.

(** The two variants of the spec's [stepPage]. *)
Inductive StepVariant : Type :=
| Explicit   (* cycleThroughAttachments, arrow buttons *)
| Hard.      (* gotoAttachments, after a released gesture *)

Definition stepPage `{JS.Runtime} (v : StepVariant) : Z -> Carousel -> Carousel :=
  match v with
  | Explicit => cycleThroughAttachments
  | Hard => gotoAttachments
  end.

(** ** The component as an event-driven machine

    Everything that can happen to a mounted carousel: the host and React run
    the derivation effect, measure the container and mount the list; the list
    reports viewable items; the user presses an arrow, taps, zooms, and moves
    or lifts a finger; the animator finishes an animation or calls the
    callback of one that was superseded; the video player enters or leaves
    full screen. *)
Inductive Event : Type :=
| AttachmentsDerived (attachmentsFromReport : list Attachment)
| Layout (width : Q)
| ListRendered
| ViewableItemsChanged (viewableItems : list ViewToken)
| ArrowPressed (deltaSlide : Z)
| Tap
| ScaleChanged (newScale : Q)
| TouchesMove (evt : GestureTouchEvent)
| PanUpdate (evt : PanUpdateEvent)
| TouchesUp
| AnimationFinished
| AnimationCancelled
| FullScreenChanged (on : bool).

Definition handle `{JS.Runtime} (p : Props.t) (canUseTouchScreen : bool) (e : Event) (s : Carousel)
    : option Carousel :=
  match e with
  | AttachmentsDerived l => Some (attachmentsEffect p l s)
  | Layout w => Some (onLayout w s)
  | ListRendered => Some (attachScrollRef s)
  | ViewableItemsChanged l => Some (updatePage p l s)
  | ArrowPressed d => Some (cycleThroughAttachments d s)
  | Tap => Some (handleTap s)
  | ScaleChanged q => Some (handleScaleChange canUseTouchScreen q s)
  | TouchesMove evt => onTouchesMove evt s
  | PanUpdate evt => Some (onUpdate evt s)
  | TouchesUp => Some (onTouchesUp s)
  | AnimationFinished => Some (animationFinished s)
  | AnimationCancelled => Some (animationCancelled s)
  | FullScreenChanged b => Some (set_isFullScreen b s)
  end.

Fixpoint run `{JS.Runtime} (p : Props.t) (canUseTouchScreen : bool) (es : list Event) (s : Carousel)
    : option Carousel :=
  match es with
  | [] => Some s
  | e :: rest =>
      match handle p canUseTouchScreen e s with
      | Some s' => run p canUseTouchScreen rest s'
      | None => None
      end
  end.

(** ** A concrete carousel used for examples *)

Module Sample.

Local Open Scope string_scope.

Definition A : Attachment :=
  {| source := SourceString "https://img/a.png"; reportActionID := Some "101";
     displayName := "a.png" |}.
Definition B : Attachment :=
  {| source := SourceString "https://img/b.png"; reportActionID := Some "102";
     displayName := "b.png" |}.
Definition C : Attachment :=
  {| source := SourceNumber 7; reportActionID := None; displayName := "c.pdf" |}.

(** Exact arithmetic, which is what binary64 computes on the integers used in
    the examples, and a heap on which the objects 1 and 2 have the same
    content. *)
Definition runtime : JS.Runtime :=
  {| JS.mul := Qmult;
     JS.sub := Qminus;
     JS.div := Qdiv;
     JS.contentOf := fun r => if (r <=? 2)%positive then "{uri: 'photo'}" else "{}" |}.

(** Two attachments that differ only in the identity of their source object. *)
Definition O1 : Attachment :=
  {| source := SourceObject 1; reportActionID := Some "201"; displayName := "o.png" |}.
Definition O2 : Attachment :=
  {| source := SourceObject 2; reportActionID := Some "201"; displayName := "o.png" |}.

(** The host opened the carousel on attachment [B] and passes both
    callbacks. *)
Definition props : Props.t :=
  {| Props.source := source B; Props.onNavigate := true;
     Props.setDownloadButtonVisibility := true |}.

Definition start : Carousel := initialState props true false.

(** First render, attachments [A; B; C] derived, a container 300 wide
    measured, the list mounted: page 1 of 0..2, offset still 0. *)
Definition mounted : Carousel :=
  {| containerWidth := 300;
     page := 1;
     attachments := [A; B; C];
     activeSource := Some (source B);
     shouldShowArrows := false;
     offsetX := 0;
     offsetXAnimation := None;
     cancelledCallbacks := [];
     isPagerScrolling := false;
     isScrollEnabled := true;
     scale := 1;
     firstTouch := None;
     secondTouch := None;
     panGestureActive := false;
     translationX := 0;
     translationY := 0;
     velocityX := 0;
     velocityY := 0;
     isFullScreen := false;
     scrollRef := true;
     effects := [SetDownloadButtonVisibility true; OnNavigate B] |}.

Definition touch (px py : Q) : GestureTouchEvent :=
  {| allTouches := [ {| x := px; y := py |} ] |}.

Definition pan (tx vx : Q) : PanUpdateEvent :=
  {| evt_translationX := tx; evt_translationY := 0;
     evt_velocityX := vx; evt_velocityY := 0 |}.

(** Two samples of a finger moving left: the pan gesture is active. *)
Definition swiping : Carousel :=
  emit StateActivate
    (set_panGestureActive true
       (set_secondTouch (Some {| x := 180; y := 101 |})
          (set_firstTouch (Some {| x := 200; y := 100 |}) mounted))).

(** The swipe moved 150 to the left, then the host entered full screen. *)
Definition swipedInFullScreen : Carousel :=
  set_isFullScreen true (@onUpdate runtime (pan (-150) 0) swiping).

(** A host that opened the carousel on the attachment with source object 1,
    and the mounted carousel that shows it. *)
Definition objectProps : Props.t :=
  {| Props.source := source O1; Props.onNavigate := true;
     Props.setDownloadButtonVisibility := true |}.

Definition showingObject : Carousel :=
  {| containerWidth := 300;
     page := 0;
     attachments := [O1];
     activeSource := Some (source O1);
     shouldShowArrows := false;
     offsetX := 0;
     offsetXAnimation := None;
     cancelledCallbacks := [];
     isPagerScrolling := false;
     isScrollEnabled := true;
     scale := 1;
     firstTouch := None;
     secondTouch := None;
     panGestureActive := false;
     translationX := 0;
     translationY := 0;
     velocityX := 0;
     velocityY := 0;
     isFullScreen := false;
     scrollRef := true;
     effects := [SetDownloadButtonVisibility true; OnNavigate O1] |}.

(** Two samples of a finger moving down: both recorded, gesture not active. *)
Definition movedDown : Carousel :=
  set_secondTouch (Some {| x := 201; y := 140 |})
    (set_firstTouch (Some {| x := 200; y := 100 |}) mounted).

End Sample.

(** ** Notions used in the statements *)

(** The index that a step by [deltaSlide] names exists. *)
Definition validTarget (s : Carousel) (deltaSlide : Z) : Prop :=
  (0 <= page s + deltaSlide <= Z.of_nat (List.length (attachments s)) - 1)%Z.

(** The animation that a step by [deltaSlide] starts. *)
Definition stepAnimation `{JS.Runtime} (e : EasingFunction) (s : Carousel) (deltaSlide : Z)
    : TimingAnimation :=
  {| toValue := JS.mul (containerWidth s) (inject_Z (page s + deltaSlide));
     duration := 300;
     easing := e;
     callback := CommitPage (page s + deltaSlide) |}.

(** The offsets that the list can show: [0 .. containerWidth * (length-1)]. *)
Definition validOffset `{JS.Runtime} (s : Carousel) (v : Q) : Prop :=
  0 <= v /\
  v <= JS.mul (containerWidth s) (inject_Z (Z.of_nat (List.length (attachments s)) - 1)).

(** The offset that [onUpdate] computes from an event. *)
Definition tentativeOffset `{JS.Runtime} (evt : PanUpdateEvent) (s : Carousel) : Q :=
  JS.sub (JS.mul (containerWidth s) (inject_Z (page s))) (evt_translationX evt).

(** What [onUpdate] writes when it accepts an event. *)
Definition acceptUpdate `{JS.Runtime} (evt : PanUpdateEvent) (s : Carousel) : Carousel :=
  set_velocityY (evt_velocityY evt)
    (set_velocityX (evt_velocityX evt)
       (set_translationY (evt_translationY evt)
          (set_translationX (evt_translationX evt)
             (set_isPagerScrolling true (assignOffsetX (tentativeOffset evt s) s))))).

(** The release test of [onTouchesUp]: far enough or fast enough. *)
Definition releaseThreshold `{JS.Runtime} (s : Carousel) : Prop :=
  JS.div (containerWidth s) 3 < Qabs (translationX s) \/ 100 < Qabs (velocityX s).

(** The head of [onTouchesUp], lines 348-349. *)
Definition clearTouches (s : Carousel) : Carousel :=
  set_secondTouch None (set_firstTouch None s).

(** The three guards that [onTouchesMove] tests before it looks at the zoom
    scale. *)
Definition moveIgnored (s : Carousel) : Prop :=
  isPagerScrolling s = true \/ panGestureActive s = true \/
  (firstTouch s <> None /\ secondTouch s <> None).

(** The easing curve of each step variant. *)
Definition easingOf (v : StepVariant) : EasingFunction :=
  match v with
  | Explicit => EasingInOutQuad
  | Hard => EasingOutQuad
  end.

(** Replaces the easing curve of the animation in flight, if any. *)
Definition withEasing (e : EasingFunction) (s : Carousel) : Carousel :=
  set_offsetXAnimation
    (option_map
       (fun a => {| toValue := toValue a; duration := duration a; easing := e;
                    callback := callback a |})
       (offsetXAnimation s))
    s.

(** The guard shared by the two step operations. *)
Definition stepAllowed (s : Carousel) (deltaSlide : Z) : Prop :=
  isFullScreen s = false /\ scrollRef s = true /\ validTarget s deltaSlide.

(** What a step variant does to the offset before it animates. *)
Definition prepareOffset `{JS.Runtime} (v : StepVariant) (s : Carousel) : Carousel :=
  match v with
  | Explicit => assignOffsetX (JS.mul (containerWidth s) (inject_Z (page s))) s
  | Hard => s
  end.

(** ** The rest of the component *)

From Stdlib Require DecimalString.

(** [`${n}`] for an integer number. *)
Definition numberToString (n : Z) : string :=
  DecimalString.NilZero.string_of_int (Z.to_int n).

(** [a ?? b]: [b] only when [a] is [null] or [undefined]. *)
Definition nullish {A : Type} (a : option A) (b : A) : A :=
  match a with Some v => v | None => b end.

(** [`${item.reportActionID}`]: the text [undefined] for a missing id. *)
Definition reportActionIDText (item : Attachment) : string :=
  match reportActionID item with
  | Some id => id
  | None => "undefined"
  end.

(** [extractItemKey], lines 199-203. The conditional binds weaker than [??],
    so the fallback belongs to the second branch, whose left operand is a
    template string. *)
Definition extractItemKey (item : Attachment) (index : Z) : string :=
  match source item with
  | SourceString s => String.append "source-" s
  | SourceNumber n => String.append "source-" (numberToString n)
  | SourceObject _ =>
      nullish (Some (String.append "reportActionID-" (reportActionIDText item)))
              (String.append "index-" (numberToString index))
  end.

(** [xs.map((item, index) => f(item, index))], counting from [i]. *)
Fixpoint mapWithIndexFrom {A B : Type} (f : A -> Z -> B) (xs : list A) (i : Z)
    : list B :=
  match xs with
  | [] => []
  | a :: rest => f a i :: mapWithIndexFrom f rest (i + 1)%Z
  end.

(** An entry of [pagerItems]. *)
Module PagerItem.
Record t : Type := {
  source : AttachmentSource;
  index : Z;
  isActive : bool
}.
End PagerItem.

(** [pagerItems], line 55. *)
Definition pagerItems (s : Carousel) : list PagerItem.t :=
  mapWithIndexFrom
    (fun item index =>
       {| PagerItem.source := source item;
          PagerItem.index := index;
          PagerItem.isActive := (index =? page s)%Z |})
    (attachments s) 0%Z.

(** The result of [getItemLayout]. *)
Module ItemLayout.
Record t : Type := {
  length : Q;
  offset : Q;
  index : Z
}.
End ItemLayout.

(** [getItemLayout], lines 206-213; the [data] argument is not read. *)
Definition getItemLayout `{JS.Runtime} (s : Carousel) (index : Z) : ItemLayout.t :=
  {| ItemLayout.length := containerWidth s;
     ItemLayout.offset := JS.mul (containerWidth s) (inject_Z index);
     ItemLayout.index := index |}.

(** The [isFocused] prop that [renderItem] passes, line 232:
    [activeSource === item.source]. *)
Definition isFocused (s : Carousel) (item : Attachment) : bool :=
  match activeSource s with
  | Some a => sourceEq a (source item)
  | None => false
  end.

(** A gesture's stream of pan updates, oldest first. *)
Definition onUpdates `{JS.Runtime} (evts : list PanUpdateEvent) (s : Carousel) : Carousel :=
  fold_left (fun acc evt => onUpdate evt acc) evts s.

(** The pan arbiter at rest: an inactive gesture has empty accumulators, and
    a second touch sample is only held together with a first one. *)
Definition arbiterConsistent (s : Carousel) : Prop :=
  (panGestureActive s = false ->
   translationX s = 0 /\ translationY s = 0 /\ velocityX s = 0 /\ velocityY s = 0) /\
  (firstTouch s = None -> secondTouch s = None).

(** The scroll-enabled flag agrees with the stored zoom scale. *)
Definition zoomConsistent (canUseTouchScreen : bool) (s : Carousel) : Prop :=
  isScrollEnabled s = JS.eq (scale s) 1 && canUseTouchScreen.

(** The release test of [onTouchesUp] on the values of a pan event. *)
Definition eventPastThreshold `{JS.Runtime} (s : Carousel) (evt : PanUpdateEvent) : Prop :=
  JS.div (containerWidth s) 3 < Qabs (evt_translationX evt) \/
  100 < Qabs (evt_velocityX evt).

(** The shared values that only the pan gesture handlers write. *)
Definition gestureFields (s : Carousel)
    : bool * (Q * Q * Q * Q) * (option Point * option Point) :=
  (panGestureActive s,
   (translationX s, translationY s, velocityX s, velocityY s),
   (firstTouch s, secondTouch s)).

(** The zoom scale and the flag derived from it. *)
Definition zoomFields (s : Carousel) : bool * Q :=
  (isScrollEnabled s, scale s).

(** * Properties *)

Ltac break_state s :=
  destruct s as [cw pg atts src arrows off anim cancelled scrolling enabled sc
                 t1 t2 active tx ty vx vy full ref eff].

Ltac split_tests :=
  repeat match goal with
         | |- context [if ?b then _ else _] => destruct b
         | |- context [match ?o with Some _ => _ | None => _ end] => destruct o
         | |- context [match ?l with nil => _ | cons _ _ => _ end] => destruct l
         | |- context [match ?c with CommitPage _ => _ end] => destruct c
         end.

Ltac touch_cases :=
  repeat first
    [ progress cbn -[JS.lt JS.eq JS.lastElement Qabs JS.sub]
    | match goal with
      | |- context [JS.lastElement ?l] => destruct (JS.lastElement l)
      | |- context [if ?b then _ else _] => destruct b
      | |- context [match ?o with Some _ => _ | None => _ end] =>
          is_var o; destruct o
      end ].

Section Properties.

Context {R : JS.Runtime}.

(** ** Facts about the JavaScript helpers *)

Lemma JS_lt_true (a b : Q) : JS.lt a b = true <-> a < b.
Proof.
  unfold JS.lt. rewrite negb_true_iff. split.
  - intros H. apply Qnot_le_lt. intros Hle.
    apply Qle_bool_iff in Hle. congruence.
  - intros H. destruct (Qle_bool b a) eqn:E; [|reflexivity].
    apply Qle_bool_iff in E. exfalso. exact (Qlt_not_le _ _ H E).
Qed.

Lemma JS_lt_false (a b : Q) : JS.lt a b = false <-> b <= a.
Proof.
  unfold JS.lt. rewrite negb_false_iff. apply Qle_bool_iff.
Qed.

Lemma JS_eq_true (a b : Q) : JS.eq a b = true <-> a == b.
Proof. apply Qeq_bool_iff. Qed.

Lemma JS_eq_false (a b : Q) : JS.eq a b = false <-> ~ a == b.
Proof.
  split.
  - intros H E. apply JS_eq_true in E. congruence.
  - intros H. destruct (JS.eq a b) eqn:E; [|reflexivity].
    apply JS_eq_true in E. contradiction.
Qed.

Lemma JS_index_outside {A : Type} (xs : list A) (i : Z) :
  (i < 0 \/ i > Z.of_nat (List.length xs) - 1)%Z -> JS.index xs i = None.
Proof.
  intros H. unfold JS.index.
  destruct (i <? 0)%Z eqn:E; [reflexivity|].
  apply Z.ltb_ge in E. apply nth_error_None. lia.
Qed.

Lemma JS_index_inside {A : Type} (xs : list A) (i : Z) :
  (0 <= i <= Z.of_nat (List.length xs) - 1)%Z -> JS.truthy (JS.index xs i) = true.
Proof.
  intros H. unfold JS.index.
  destruct (i <? 0)%Z eqn:E; [apply Z.ltb_lt in E; lia|].
  destruct (nth_error xs (Z.to_nat i)) eqn:N; [reflexivity|].
  apply nth_error_None in N. lia.
Qed.

Lemma findIndexFrom_none {A : Type} (f : A -> bool) (xs : list A) (i : Z) :
  (0 <= i)%Z ->
  (JS.findIndexFrom f xs i = -1)%Z <-> (forall a, In a xs -> f a = false).
Proof.
  revert i. induction xs as [|a rest IH]; intros i Hi; simpl.
  - split; [intros _ a []|reflexivity].
  - destruct (f a) eqn:Fa.
    + split; [lia|]. intros H. specialize (H a (or_introl eq_refl)). congruence.
    + rewrite IH by lia. split.
      * intros H b [<-|Hb]; auto.
      * intros H b Hb. apply H. now right.
Qed.

Lemma findIndex_none {A : Type} (f : A -> bool) (xs : list A) :
  (JS.findIndex f xs = -1)%Z <-> (forall a, In a xs -> f a = false).
Proof. apply findIndexFrom_none. lia. Qed.

Lemma find_truthy {A : Type} (f : A -> bool) (xs : list A) :
  JS.truthy (find f xs) = true <-> (exists a, In a xs /\ f a = true).
Proof.
  split.
  - destruct (find f xs) as [a|] eqn:E; [|discriminate].
    intros _. apply find_some in E. now exists a.
  - intros [a [Ha Fa]]. destruct (find f xs) eqn:E; [reflexivity|].
    rewrite (find_none _ _ E a Ha) in Fa. discriminate.
Qed.

Lemma sourceEq_true (a b : AttachmentSource) : sourceEq a b = true <-> a = b.
Proof.
  unfold sourceEq. destruct (AttachmentSource_eq_dec a b); split; congruence.
Qed.

Lemma isEqual_refl (xs : list Attachment) : isEqual xs xs = true.
Proof.
  induction xs as [|a rest IH]; [reflexivity|]. cbn [isEqual].
  rewrite IH, andb_true_r. unfold attachmentIsEqual.
  rewrite String.eqb_refl, andb_true_r.
  assert (Hs : sourceIsEqual (source a) (source a) = true).
  { unfold sourceIsEqual. destruct (source a);
      [apply String.eqb_refl | apply Z.eqb_refl | apply String.eqb_refl]. }
  rewrite Hs. destruct (reportActionID a); [apply String.eqb_refl | reflexivity].
Qed.

(** ** Facts about the step operations *)

Lemma gotoAttachments_valid (s : Carousel) (d : Z) :
  isFullScreen s = false -> scrollRef s = true -> validTarget s d ->
  gotoAttachments d s = animateOffsetX (stepAnimation EasingOutQuad s d) s.
Proof.
  intros Hf Hr Hv. unfold gotoAttachments.
  rewrite Hf, Hr, (@JS_index_inside _ (attachments s) (page s + d)%Z Hv). reflexivity.
Qed.

Lemma cycleThroughAttachments_valid (s : Carousel) (d : Z) :
  isFullScreen s = false -> scrollRef s = true -> validTarget s d ->
  cycleThroughAttachments d s =
    animateOffsetX (stepAnimation EasingInOutQuad s d)
      (assignOffsetX (JS.mul (containerWidth s) (inject_Z (page s))) s).
Proof.
  intros Hf Hr Hv. unfold cycleThroughAttachments.
  rewrite Hf, Hr, (@JS_index_inside _ (attachments s) (page s + d)%Z Hv). reflexivity.
Qed.

(** Neither step operation touches the scrolling flag, the page, the
    attachments, the measured width or the refs. *)
Lemma stepPage_frame (v : StepVariant) (d : Z) (s : Carousel) :
  let s' := stepPage v d s in
  isPagerScrolling s' = isPagerScrolling s /\ page s' = page s /\
  attachments s' = attachments s /\ containerWidth s' = containerWidth s /\
  isFullScreen s' = isFullScreen s /\ scrollRef s' = scrollRef s /\
  panGestureActive s' = panGestureActive s /\ effects s' = effects s.
Proof.
  destruct s as [cw pg atts src arrows off anim cancelled scrolling enabled sc
                 t1 t2 active tx ty vx vy full ref eff].
  destruct v; cbn -[JS.mul inject_Z Z.add];
    unfold cycleThroughAttachments, gotoAttachments; cbn -[JS.mul inject_Z Z.add];
    destruct full; cbn -[JS.mul inject_Z Z.add]; auto 10;
    (destruct (negb _ || negb _); cbn -[JS.mul inject_Z Z.add]; auto 10);
    destruct anim; cbn -[JS.mul inject_Z Z.add]; auto 10.
Qed.

(** ** Stepping beyond the ends of the list *)

(** Claim C3. When [page + deltaSlide] lies outside [0 .. length-1], both
    [cycleThroughAttachments] and [gotoAttachments] return the state they were
    given: the page, the scroll offset, the animation slot and the trace of
    host calls are all unchanged. *)
Theorem step_outside_is_noop (s : Carousel) (deltaSlide : Z) :
  (page s + deltaSlide < 0 \/
   page s + deltaSlide > Z.of_nat (List.length (attachments s)) - 1)%Z ->
  cycleThroughAttachments deltaSlide s = s /\ gotoAttachments deltaSlide s = s.
Proof.
  intros Hout.
  unfold cycleThroughAttachments, gotoAttachments.
  rewrite (JS_index_outside (attachments s) _ Hout). simpl.
  destruct (isFullScreen s); split; reflexivity.
Qed.

(** ** Gesture updates *)

Lemma onUpdate_cases (evt : PanUpdateEvent) (s : Carousel) :
  panGestureActive s = true ->
  (onUpdate evt s = s /\
     (containerWidth s == 0 \/ scrollRef s = false \/
      ~ validOffset s (tentativeOffset evt s)))
  \/
  (onUpdate evt s = acceptUpdate evt s /\
     ~ containerWidth s == 0 /\ scrollRef s = true /\
     validOffset s (tentativeOffset evt s)).
Proof.
  intros Hact. unfold onUpdate. rewrite Hact. simpl.
  destruct (JS.eq (containerWidth s) 0) eqn:Hw.
  { left. split; [reflexivity|]. left. now apply JS_eq_true. }
  apply JS_eq_false in Hw.
  destruct (scrollRef s) eqn:Hr; simpl.
  2:{ left. split; [reflexivity|]. right. now left. }
  fold (tentativeOffset evt s).
  destruct (JS.lt (tentativeOffset evt s) 0) eqn:Hlo; simpl.
  { left. split; [reflexivity|]. right. right. intros [H0 _].
    apply JS_lt_true in Hlo. exact (Qlt_not_le _ _ Hlo H0). }
  destruct (JS.lt _ (tentativeOffset evt s)) eqn:Hhi.
  { left. split; [reflexivity|]. right. right. intros [_ H1].
    apply JS_lt_true in Hhi. exact (Qlt_not_le _ _ Hhi H1). }
  right. apply JS_lt_false in Hlo, Hhi.
  repeat split; auto.
Qed.

Lemma acceptUpdate_fields (evt : PanUpdateEvent) (s : Carousel) :
  let s' := acceptUpdate evt s in
  offsetX s' = tentativeOffset evt s /\ isPagerScrolling s' = true /\
  translationX s' = evt_translationX evt /\ translationY s' = evt_translationY evt /\
  velocityX s' = evt_velocityX evt /\ velocityY s' = evt_velocityY evt /\
  containerWidth s' = containerWidth s /\ attachments s' = attachments s /\
  page s' = page s.
Proof.
  unfold acceptUpdate, assignOffsetX, cancelAnimation.
  destruct (offsetXAnimation s); cbn -[tentativeOffset]; repeat split; reflexivity.
Qed.

(** Claim C4. While the pan gesture is active, a move update either leaves the
    whole state as it was (in particular the scroll offset and the four
    accumulators), or writes the tentative offset [containerWidth * page -
    translationX], which then lies in [0 .. containerWidth * (length-1)];
    offset and bound are the numbers that the runtime computes. The
    state is left as it was whenever the container width is zero or the
    tentative offset lies outside that interval; a measured width, a mounted
    list and a tentative offset inside the interval make the update write the
    offset, set the scrolling flag and record translation and velocity. Hence
    an offset inside the interval stays inside it. *)
Theorem onUpdate_offset_in_range (evt : PanUpdateEvent) (s : Carousel) :
  panGestureActive s = true ->
  let s' := onUpdate evt s in
  (s' = s \/
   (offsetX s' = tentativeOffset evt s /\ validOffset s (offsetX s'))) /\
  (containerWidth s == 0 \/ ~ validOffset s (tentativeOffset evt s) -> s' = s) /\
  (~ containerWidth s == 0 -> scrollRef s = true ->
   validOffset s (tentativeOffset evt s) ->
   offsetX s' = tentativeOffset evt s /\ isPagerScrolling s' = true /\
   translationX s' = evt_translationX evt /\ translationY s' = evt_translationY evt /\
   velocityX s' = evt_velocityX evt /\ velocityY s' = evt_velocityY evt) /\
  (validOffset s (offsetX s) -> validOffset s' (offsetX s')).
Proof.
  intros Hact s'. subst s'.
  destruct (onUpdate_cases evt s Hact) as [[Heq Hwhy]|[Heq [Hw [Hr Hv]]]];
    rewrite Heq.
  - split; [now left|]. split; [reflexivity|]. split; [|tauto].
    intros Hw Hr Hv. exfalso.
    destruct Hwhy as [H|[H|H]]; [contradiction | congruence | contradiction].
  - destruct (acceptUpdate_fields evt s)
      as (Ho & Hs & Htx & Hty & Hvx & Hvy & Hcw & Hat & Hp).
    split; [|split; [|split]].
    + right. rewrite Ho. split; [reflexivity | exact Hv].
    + intros [Hz | Hn]; contradiction.
    + intros _ _ _. repeat split; assumption.
    + intros _. unfold validOffset. rewrite Ho, Hcw, Hat. exact Hv.
Qed.

(** ** Deciding whether a touch-move activates the pan gesture *)

Lemma handleScaleChange_frame (canUseTouchScreen : bool) (newScale : Q) (s : Carousel) :
  let s' := handleScaleChange canUseTouchScreen newScale s in
  scale s' == newScale /\
  isPagerScrolling s' = isPagerScrolling s /\
  panGestureActive s' = panGestureActive s /\
  firstTouch s' = firstTouch s /\ secondTouch s' = secondTouch s.
Proof.
  unfold handleScaleChange.
  destruct (JS.eq newScale (scale s)) eqn:E.
  - apply JS_eq_true in E. repeat split; try reflexivity. now symmetry.
  - destruct (Bool.eqb _ _); destruct s; cbn; repeat split; reflexivity.
Qed.

Lemma onTouchesMove_ignored (evt : GestureTouchEvent) (s : Carousel) :
  moveIgnored s -> onTouchesMove evt s = Some s.
Proof.
  unfold moveIgnored, onTouchesMove. intros [H|[H|[H1 H2]]].
  - now rewrite H.
  - rewrite H. now destruct (isPagerScrolling s).
  - destruct (isPagerScrolling s); [reflexivity|].
    destruct (panGestureActive s); [reflexivity|].
    destruct (firstTouch s); [|congruence].
    destruct (secondTouch s); [|congruence]. reflexivity.
Qed.

Lemma onTouchesMove_zoomed_out (evt : GestureTouchEvent) (s : Carousel) :
  isPagerScrolling s = false -> panGestureActive s = false ->
  firstTouch s = None \/ secondTouch s = None ->
  scale s < 1 ->
  onTouchesMove evt s = Some (emit StateActivate (set_panGestureActive true s)).
Proof.
  intros Hs Ha Ht Hz. unfold onTouchesMove. rewrite Hs, Ha.
  apply JS_lt_true in Hz. rewrite Hz.
  destruct Ht as [Ht|Ht]; rewrite Ht; [reflexivity|].
  now destruct (firstTouch s).
Qed.

(** Claim C2, as the code has it. After a zoom scale below 1 was reported, the
    next touch-move activates the pan gesture at once (sets the active flag
    and calls [state.activate()]) when the pager is not scrolling, the
    gesture is not active yet and fewer than two touch points are recorded.
    When two touch points are already recorded, or the pager is scrolling, or
    the gesture is already active, the touch-move leaves the state as it is:
    those guards are tested before the zoom scale. *)
Theorem zoomed_out_touch_move (canUseTouchScreen : bool) (newScale : Q)
    (evt : GestureTouchEvent) (s : Carousel) :
  newScale < 1 ->
  (isPagerScrolling s = false -> panGestureActive s = false ->
   firstTouch s = None \/ secondTouch s = None ->
   onTouchesMove evt (handleScaleChange canUseTouchScreen newScale s)
   = Some (emit StateActivate
             (set_panGestureActive true
                (handleScaleChange canUseTouchScreen newScale s)))) /\
  (moveIgnored s ->
   onTouchesMove evt (handleScaleChange canUseTouchScreen newScale s)
   = Some (handleScaleChange canUseTouchScreen newScale s)).
Proof.
  intros Hz.
  destruct (handleScaleChange_frame canUseTouchScreen newScale s)
    as (Hsc & Hs & Ha & H1 & H2).
  split.
  - intros Hs0 Ha0 Ht. apply onTouchesMove_zoomed_out.
    + congruence.
    + congruence.
    + rewrite H1, H2. exact Ht.
    + rewrite Hsc. exact Hz.
  - intros Hi. apply onTouchesMove_ignored. unfold moveIgnored.
    rewrite Hs, Ha, H1, H2. exact Hi.
Qed.

(** ** Touch-moves while an animation runs *)

Lemma onTouchesUp_keeps_scrolling_flag (s : Carousel) :
  isPagerScrolling (onTouchesUp s) = isPagerScrolling s.
Proof.
  unfold onTouchesUp.
  set (s1 := set_secondTouch None (set_firstTouch None s)).
  change (isPagerScrolling s) with (isPagerScrolling s1).
  destruct (negb (panGestureActive s1)); [reflexivity|].
  change (isPagerScrolling (resetPan ?t)) with (isPagerScrolling t).
  destruct (isPagerScrolling s1) eqn:E; [|exact E].
  rewrite <- E.
  destruct (_ || _); [destruct (JS.lt 0 _)|];
    apply (stepPage_frame Hard _ s1).
Qed.

(** Claim C8, as the code has it. The guard of [onTouchesMove] is the
    [isPagerScrolling] flag, not the animation: while the flag is set a
    touch-move changes nothing. An accepted gesture update sets the flag;
    release and both step operations leave it as it is, so it stays set
    through the [gotoAttachments] animation that follows a released swipe,
    until a completion callback clears it. [cycleThroughAttachments] does not
    set it. *)
Theorem touch_move_blocked_by_scrolling_flag (s : Carousel) :
  (isPagerScrolling s = true -> forall evt, onTouchesMove evt s = Some s) /\
  (forall evt, onUpdate evt s = s \/ isPagerScrolling (onUpdate evt s) = true) /\
  isPagerScrolling (onTouchesUp s) = isPagerScrolling s /\
  (forall d, isPagerScrolling (gotoAttachments d s) = isPagerScrolling s) /\
  (forall d, isPagerScrolling (cycleThroughAttachments d s) = isPagerScrolling s) /\
  (forall c, isPagerScrolling (runCallback c s) = false).
Proof.
  split; [|split; [|split; [|split; [|split]]]].
  - intros H evt. apply onTouchesMove_ignored. now left.
  - intros evt. destruct (panGestureActive s) eqn:Ha.
    + destruct (onUpdate_cases evt s Ha) as [[Heq _]|[Heq _]]; [now left|].
      right. rewrite Heq. apply acceptUpdate_fields.
    + left. unfold onUpdate. now rewrite Ha.
  - apply onTouchesUp_keeps_scrolling_flag.
  - intros d. apply (stepPage_frame Hard d s).
  - intros d. apply (stepPage_frame Explicit d s).
  - intros [n]. reflexivity.
Qed.

(** ** The two step operations side by side *)

Lemma step_refused (v : StepVariant) (s : Carousel) (d : Z) :
  ~ stepAllowed s d -> stepPage v d s = s.
Proof.
  intros Hn.
  assert (H : isFullScreen s = true \/
              negb (JS.truthy (JS.index (attachments s) (page s + d))) || negb (scrollRef s)
              = true).
  { destruct (isFullScreen s) eqn:Hf; [now left|]. right.
    destruct (scrollRef s) eqn:Hr; [|apply orb_true_r].
    rewrite orb_false_r.
    destruct (JS.index (attachments s) (page s + d)) eqn:Hi; [|reflexivity].
    exfalso. apply Hn. split; [exact Hf|]. split; [exact Hr|].
    unfold validTarget. unfold JS.index in Hi.
    destruct (page s + d <? 0)%Z eqn:E; [discriminate|]. apply Z.ltb_ge in E.
    assert (nth_error (attachments s) (Z.to_nat (page s + d)) <> None) by congruence.
    apply nth_error_Some in H. lia. }
  clear Hn.
  destruct v; simpl; unfold cycleThroughAttachments, gotoAttachments;
    destruct H as [H|H]; rewrite H; try reflexivity;
    destruct (isFullScreen s); reflexivity.
Qed.

(** Claim C9, as the code has it. The two step operations have the same
    guard: where one returns the state it was given, so does the other. With
    a valid target both start an animation toward [containerWidth *
    nextIndex] over 300 units whose callback commits [nextIndex] and clears
    the scrolling flag. They differ in the easing curve and in the offset the
    animation starts from: [cycleThroughAttachments] first writes
    [containerWidth * page] to the scroll offset, [gotoAttachments] keeps the
    offset where it is. Once the animation has finished the two states are
    equal. *)
Theorem step_variants_compared (s : Carousel) (deltaSlide : Z) :
  (~ stepAllowed s deltaSlide ->
   cycleThroughAttachments deltaSlide s = s /\ gotoAttachments deltaSlide s = s) /\
  (stepAllowed s deltaSlide ->
   offsetXAnimation (gotoAttachments deltaSlide s)
   = Some (stepAnimation EasingOutQuad s deltaSlide) /\
   offsetXAnimation (cycleThroughAttachments deltaSlide s)
   = Some (stepAnimation EasingInOutQuad s deltaSlide) /\
   offsetX (gotoAttachments deltaSlide s) = offsetX s /\
   offsetX (cycleThroughAttachments deltaSlide s)
   = JS.mul (containerWidth s) (inject_Z (page s)) /\
   cycleThroughAttachments deltaSlide s
   = withEasing EasingInOutQuad
       (gotoAttachments deltaSlide
          (set_offsetX (JS.mul (containerWidth s) (inject_Z (page s))) s)) /\
   animationFinished (cycleThroughAttachments deltaSlide s)
   = animationFinished (gotoAttachments deltaSlide s) /\
   page (animationFinished (gotoAttachments deltaSlide s)) = (page s + deltaSlide)%Z /\
   isPagerScrolling (animationFinished (gotoAttachments deltaSlide s)) = false).
Proof.
  split.
  - intros Hn. split; [apply (step_refused Explicit s _ Hn) | apply (step_refused Hard s _ Hn)].
  - intros (Hf & Hr & Hv).
    rewrite (cycleThroughAttachments_valid s _ Hf Hr Hv).
    rewrite (gotoAttachments_valid s _ Hf Hr Hv).
    assert (Hv' : validTarget (set_offsetX (JS.mul (containerWidth s) (inject_Z (page s))) s)
                    deltaSlide) by exact Hv.
    rewrite (@gotoAttachments_valid
               (set_offsetX (JS.mul (containerWidth s) (inject_Z (page s))) s) deltaSlide Hf Hr Hv').
    unfold animateOffsetX, assignOffsetX, cancelAnimation, animationFinished,
      withEasing, stepAnimation.
    destruct s as [cw pg atts src arrows off anim cancelled scrolling enabled sc
                   t1 t2 active tx ty vx vy full ref eff].
    destruct anim; cbn -[JS.mul inject_Z Z.add]; repeat split; reflexivity.
Qed.

(** ** Re-targeting an animation in flight *)

Lemma stepPage_valid (v : StepVariant) (s : Carousel) (d : Z) :
  stepAllowed s d ->
  stepPage v d s = animateOffsetX (stepAnimation (easingOf v) s d) (prepareOffset v s).
Proof.
  intros (Hf & Hr & Hv). destruct v; simpl.
  - now apply cycleThroughAttachments_valid.
  - now apply gotoAttachments_valid.
Qed.

Lemma stepPage_keeps_allowed (v : StepVariant) (s : Carousel) (d d' : Z) :
  stepAllowed s d' -> stepAllowed (stepPage v d s) d'.
Proof.
  intros (Hf & Hr & Hv).
  destruct (stepPage_frame v d s) as (_ & Hp & Hat & _ & Hf' & Hr' & _).
  unfold stepAllowed, validTarget. rewrite Hf', Hr', Hp, Hat. auto.
Qed.

(** Claim C5, as the code has it. The completion callbacks carry no token and
    take no [finished] argument: a callback sets the page to the index it
    captured and clears the scrolling flag whenever it is called. After a step
    toward [page + d1] is re-targeted by a step toward [page + d2], the first
    callback waits to be called by the animator; when it is called the page
    becomes the superseded target [page + d1]. The completion of the newest
    animation sets the page to [page + d2], so the newest target is the one
    that remains. *)
Theorem retargeted_step_commits (v1 v2 : StepVariant) (d1 d2 : Z) (s : Carousel) :
  stepAllowed s d1 -> stepAllowed s d2 ->
  offsetXAnimation s = None -> cancelledCallbacks s = [] ->
  (forall n t, page (runCallback (CommitPage n) t) = n /\
               isPagerScrolling (runCallback (CommitPage n) t) = false) /\
  offsetXAnimation (stepPage v2 d2 (stepPage v1 d1 s))
  = Some (stepAnimation (easingOf v2) s d2) /\
  cancelledCallbacks (stepPage v2 d2 (stepPage v1 d1 s)) = [CommitPage (page s + d1)] /\
  page (animationCancelled (stepPage v2 d2 (stepPage v1 d1 s))) = (page s + d1)%Z /\
  page (animationFinished (stepPage v2 d2 (stepPage v1 d1 s))) = (page s + d2)%Z /\
  page (animationFinished (animationCancelled (stepPage v2 d2 (stepPage v1 d1 s))))
  = (page s + d2)%Z.
Proof.
  intros H1 H2 Hanim Hcanc.
  split; [intros n t; split; reflexivity|].
  rewrite (stepPage_valid v2 _ _ (stepPage_keeps_allowed v1 _ d1 _ H2)).
  rewrite (stepPage_valid v1 _ _ H1).
  unfold animateOffsetX, assignOffsetX, cancelAnimation, animationFinished,
    animationCancelled, stepAnimation.
  destruct s as [cw pg atts src arrows off anim cancelled scrolling enabled sc
                 t1 t2 active tx ty vx vy full ref eff].
  cbn in Hanim, Hcanc. subst anim cancelled.
  destruct v1, v2; cbn -[JS.mul inject_Z Z.add]; repeat split; reflexivity.
Qed.

(** ** Releasing the gesture *)

Lemma releaseThreshold_test (s : Carousel) :
  JS.lt (JS.div (containerWidth s) 3) (Qabs (translationX s)) || JS.lt 100 (Qabs (velocityX s))
  = true <-> releaseThreshold s.
Proof.
  unfold releaseThreshold. rewrite orb_true_iff, !JS_lt_true. reflexivity.
Qed.

Lemma onTouchesUp_active (s : Carousel) :
  panGestureActive s = true -> isPagerScrolling s = true ->
  onTouchesUp s =
    resetPan
      (if JS.lt (JS.div (containerWidth s) 3) (Qabs (translationX s))
          || JS.lt 100 (Qabs (velocityX s))
       then if JS.lt 0 (translationX s)
            then gotoAttachments (-1) (clearTouches s)
            else gotoAttachments 1 (clearTouches s)
       else gotoAttachments 0 (clearTouches s)).
Proof.
  intros Ha Hs. unfold onTouchesUp, clearTouches.
  destruct s; cbn in Ha, Hs; subst; reflexivity.
Qed.

Lemma resetPan_fields (s : Carousel) :
  panGestureActive (resetPan s) = false /\
  translationX (resetPan s) = 0 /\ translationY (resetPan s) = 0 /\
  velocityX (resetPan s) = 0 /\ velocityY (resetPan s) = 0.
Proof. repeat split; reflexivity. Qed.

Lemma released_step_fields (t : Carousel) (d : Z) :
  stepAllowed t d ->
  offsetXAnimation (resetPan (gotoAttachments d t))
  = Some (stepAnimation EasingOutQuad t d) /\
  page (animationFinished (resetPan (gotoAttachments d t))) = (page t + d)%Z /\
  offsetX (animationFinished (resetPan (gotoAttachments d t)))
  = JS.mul (containerWidth t) (inject_Z (page t + d)) /\
  offsetXAnimation (animationFinished (resetPan (gotoAttachments d t))) = None /\
  isPagerScrolling (animationFinished (resetPan (gotoAttachments d t))) = false /\
  panGestureActive (animationFinished (resetPan (gotoAttachments d t))) = false.
Proof.
  intros (Hf & Hr & Hv). rewrite (gotoAttachments_valid t d Hf Hr Hv).
  unfold animateOffsetX, cancelAnimation, animationFinished, stepAnimation, resetPan.
  destruct t as [cw pg atts src arrows off anim cancelled scrolling enabled sc
                 t1 t2 active tx ty vx vy full ref eff].
  destruct anim; cbn -[JS.mul inject_Z Z.add]; repeat split; reflexivity.
Qed.

(** Claim C1, as the code has it. On release of an activated gesture that was
    mid-scroll, the handler runs [gotoAttachments] with delta [+1] (next
    page) when the translation is negative and with delta [-1] (previous
    page) when it is positive, provided [|translationX| > containerWidth / 3]
    (the quotient as the runtime computes it) or [|velocityX| > 100]; when
    neither bound is exceeded it runs [gotoAttachments 0]. Where
    [gotoAttachments] accepts the step (host not in full screen, list
    mounted, target page exists) the release has started the jump toward
    [containerWidth * (page + delta)], whose completion commits [page +
    delta] and clears the scrolling flag; where it refuses, no animation is
    started and the page stays. In every case the active flag is then false
    and the four translation and velocity accumulators are zero. *)
Theorem onTouchesUp_commit_decision (s : Carousel) :
  panGestureActive s = true -> isPagerScrolling s = true ->
  (releaseThreshold s -> translationX s < 0 ->
   onTouchesUp s = resetPan (gotoAttachments 1 (clearTouches s))) /\
  (releaseThreshold s -> 0 < translationX s ->
   onTouchesUp s = resetPan (gotoAttachments (-1) (clearTouches s))) /\
  (~ releaseThreshold s ->
   onTouchesUp s = resetPan (gotoAttachments 0 (clearTouches s))) /\
  (forall d,
     onTouchesUp s = resetPan (gotoAttachments d (clearTouches s)) ->
     (stepAllowed s d ->
      offsetXAnimation (onTouchesUp s) = Some (stepAnimation EasingOutQuad s d) /\
      page (animationFinished (onTouchesUp s)) = (page s + d)%Z /\
      offsetX (animationFinished (onTouchesUp s))
      = JS.mul (containerWidth s) (inject_Z (page s + d)) /\
      isPagerScrolling (animationFinished (onTouchesUp s)) = false) /\
     (~ stepAllowed s d ->
      onTouchesUp s = resetPan (clearTouches s) /\
      offsetXAnimation (onTouchesUp s) = offsetXAnimation s /\
      cancelledCallbacks (onTouchesUp s) = cancelledCallbacks s /\
      page (onTouchesUp s) = page s)) /\
  (panGestureActive (onTouchesUp s) = false /\
   translationX (onTouchesUp s) = 0 /\ translationY (onTouchesUp s) = 0 /\
   velocityX (onTouchesUp s) = 0 /\ velocityY (onTouchesUp s) = 0).
Proof.
  intros Ha Hs. pose proof (onTouchesUp_active s Ha Hs) as Hup.
  assert (Hdelta :
    (releaseThreshold s -> translationX s < 0 ->
     onTouchesUp s = resetPan (gotoAttachments 1 (clearTouches s))) /\
    (releaseThreshold s -> 0 < translationX s ->
     onTouchesUp s = resetPan (gotoAttachments (-1) (clearTouches s))) /\
    (~ releaseThreshold s ->
     onTouchesUp s = resetPan (gotoAttachments 0 (clearTouches s)))).
  { rewrite Hup.
    destruct (JS.lt (JS.div (containerWidth s) 3) (Qabs (translationX s))
              || JS.lt 100 (Qabs (velocityX s))) eqn:Ht.
    - apply releaseThreshold_test in Ht.
      destruct (JS.lt 0 (translationX s)) eqn:Hpos.
      + apply JS_lt_true in Hpos. split; [|split].
        * intros _ Hneg. exfalso. exact (Qlt_irrefl _ (Qlt_trans _ _ _ Hpos Hneg)).
        * reflexivity.
        * intros Hn. contradiction.
      + split; [|split].
        * reflexivity.
        * intros _ Hp. apply JS_lt_true in Hp. congruence.
        * intros Hn. contradiction.
    - assert (Hn : ~ releaseThreshold s).
      { intros H. apply releaseThreshold_test in H. congruence. }
      split; [|split].
      + intros H. contradiction.
      + intros H. contradiction.
      + reflexivity. }
  destruct Hdelta as (H1 & H2 & H3).
  split; [exact H1|]. split; [exact H2|]. split; [exact H3|]. split.
  - intros d Heq. split.
    + intros Hal. rewrite Heq.
      destruct (released_step_fields (clearTouches s) d Hal)
        as (Hanim & Hp & Ho & _ & Hflag & _).
      split; [exact Hanim|]. split; [exact Hp|]. split; [exact Ho | exact Hflag].
    + intros Hno. rewrite Heq.
      pose proof (step_refused Hard (clearTouches s) d Hno) as Href.
      cbn [stepPage] in Href. rewrite Href.
      repeat split; reflexivity.
  - rewrite Hup. apply resetPan_fields.
Qed.

(** A zero translation released with enough velocity takes the [else] branch
    of the direction test: the next page. *)
Lemma onTouchesUp_zero_translation (s : Carousel) :
  panGestureActive s = true -> isPagerScrolling s = true ->
  translationX s == 0 -> 100 < Qabs (velocityX s) ->
  onTouchesUp s = resetPan (gotoAttachments 1 (clearTouches s)).
Proof.
  intros Ha Hs Hz Hv. rewrite (onTouchesUp_active s Ha Hs).
  assert (Ht : releaseThreshold s) by now right.
  apply releaseThreshold_test in Ht. rewrite Ht.
  destruct (JS.lt 0 (translationX s)) eqn:Hpos; [|reflexivity].
  apply JS_lt_true in Hpos. rewrite Hz in Hpos. discriminate.
Qed.

(** ** Deriving the attachment list *)

Lemma compareImage_true (p : Props.t) (a : Attachment) :
  compareImage p a = true <-> source a = Props.source p.
Proof. apply sourceEq_true. Qed.

Lemma compareImage_false (p : Props.t) (a : Attachment) :
  compareImage p a = false <-> source a <> Props.source p.
Proof.
  rewrite <- compareImage_true. destruct (compareImage p a); split; congruence.
Qed.

Lemma attachmentsEffect_dismiss_branch (p : Props.t)
    (attachmentsFromReport : list Attachment) (s : Carousel) :
  isEqual (attachments s) attachmentsFromReport = false ->
  (forall a, In a attachmentsFromReport -> source a <> Props.source p) ->
  (exists a, In a (attachments s) /\ source a = Props.source p) ->
  attachmentsEffect p attachmentsFromReport s = emit DismissModal s.
Proof.
  intros Hne Hnew [a [Hin Ha]]. unfold attachmentsEffect. rewrite Hne.
  assert (Hidx : JS.findIndex (compareImage p) attachmentsFromReport = (-1)%Z).
  { apply findIndex_none. intros b Hb. apply compareImage_false. auto. }
  assert (Hfind : JS.truthy (find (compareImage p) (attachments s)) = true).
  { apply find_truthy. exists a. split; [exact Hin|]. now apply compareImage_true. }
  rewrite Hidx, Hfind. reflexivity.
Qed.

(** Claim C6, as the code has it. When the newly derived list is not
    structurally equal to the stored one, no attachment of the derived list
    has the requested source and some attachment of the stored list has it,
    the derivation effect calls [Navigation.dismissModal()] and does nothing
    else: the page and the stored list are unchanged, and neither
    [onNavigate] nor [setDownloadButtonVisibility] is called. *)
Theorem attachmentsEffect_dismisses (p : Props.t) (attachmentsFromReport : list Attachment)
    (s : Carousel) :
  isEqual (attachments s) attachmentsFromReport = false ->
  (forall a, In a attachmentsFromReport -> source a <> Props.source p) ->
  (exists a, In a (attachments s) /\ source a = Props.source p) ->
  attachmentsEffect p attachmentsFromReport s = emit DismissModal s /\
  page (attachmentsEffect p attachmentsFromReport s) = page s /\
  attachments (attachmentsEffect p attachmentsFromReport s) = attachments s /\
  effects (attachmentsEffect p attachmentsFromReport s) = effects s ++ [DismissModal].
Proof.
  intros Hne Hnew Hold.
  rewrite (attachmentsEffect_dismiss_branch p attachmentsFromReport s Hne Hnew Hold).
  repeat split; reflexivity.
Qed.

Lemma attachmentsEffect_guard (p : Props.t) (attachmentsFromReport : list Attachment)
    (s : Carousel) :
  isEqual (attachments s) attachmentsFromReport = true ->
  attachmentsEffect p attachmentsFromReport s = s.
Proof.
  intros H. unfold attachmentsEffect. now rewrite H.
Qed.

Lemma attachmentsEffect_stores (p : Props.t) (attachmentsFromReport : list Attachment)
    (s : Carousel) :
  isEqual (attachments s) attachmentsFromReport = false ->
  (exists a, In a attachmentsFromReport /\ source a = Props.source p) \/
  (forall a, In a (attachments s) -> source a <> Props.source p) ->
  attachments (attachmentsEffect p attachmentsFromReport s) = attachmentsFromReport.
Proof.
  intros Hne Hcase.
  assert (Hbr : (JS.findIndex (compareImage p) attachmentsFromReport =? -1)%Z
                && JS.truthy (find (compareImage p) (attachments s)) = false).
  { destruct Hcase as [[a [Hin Ha]] | Hold].
    - destruct (JS.findIndex _ _ =? -1)%Z eqn:E; [|reflexivity].
      apply Z.eqb_eq in E. rewrite findIndex_none in E. specialize (E a Hin).
      apply compareImage_false in E. contradiction.
    - destruct (JS.truthy _) eqn:E; [|apply andb_false_r].
      apply find_truthy in E. destruct E as [a [Hin Ha]].
      apply compareImage_true in Ha. now destruct (Hold a Hin). }
  unfold attachmentsEffect. rewrite Hne, Hbr.
  destruct (Props.setDownloadButtonVisibility p);
    destruct (JS.index attachmentsFromReport _);
    destruct (Props.onNavigate p); reflexivity.
Qed.

(** Claim C10, as the code has it. When the newly derived list is structurally
    equal to the stored one (lodash [isEqual], objects by content), the
    derivation effect returns the state it was given: page and stored list
    are unchanged and the trace of host calls gains nothing. A run that
    stores the derived list (the source is in the derived list, or was not in
    the stored one) makes a recomputation from the same data such a case, so
    the second run changes nothing. A run that dismisses stores nothing, and
    a recomputation from the same data dismisses again. *)
Theorem attachmentsEffect_same_data (p : Props.t) (attachmentsFromReport : list Attachment)
    (s : Carousel) :
  (isEqual (attachments s) attachmentsFromReport = true ->
   attachmentsEffect p attachmentsFromReport s = s) /\
  (isEqual (attachments s) attachmentsFromReport = false ->
   (exists a, In a attachmentsFromReport /\ source a = Props.source p) \/
   (forall a, In a (attachments s) -> source a <> Props.source p) ->
   attachmentsEffect p attachmentsFromReport
     (attachmentsEffect p attachmentsFromReport s)
   = attachmentsEffect p attachmentsFromReport s) /\
  (isEqual (attachments s) attachmentsFromReport = false ->
   (forall a, In a attachmentsFromReport -> source a <> Props.source p) ->
   (exists a, In a (attachments s) /\ source a = Props.source p) ->
   attachmentsEffect p attachmentsFromReport s = emit DismissModal s /\
   attachmentsEffect p attachmentsFromReport
     (attachmentsEffect p attachmentsFromReport s)
   = emit DismissModal (emit DismissModal s)).
Proof.
  split; [apply attachmentsEffect_guard|]. split.
  - intros Hne Hcase. apply attachmentsEffect_guard.
    rewrite (attachmentsEffect_stores p attachmentsFromReport s Hne Hcase).
    apply isEqual_refl.
  - intros Hne Hnew Hold.
    rewrite (attachmentsEffect_dismiss_branch p attachmentsFromReport s Hne Hnew Hold).
    split; [reflexivity|].
    apply (attachmentsEffect_dismiss_branch p attachmentsFromReport
             (emit DismissModal s)); assumption.
Qed.

(** ** Visibility changes reported by the list *)

(** Claim C7. [updatePage] returns the state it was given while the host is in
    full screen. Otherwise it dismisses the keyboard and, with no viewable
    entry, clears the active source and changes nothing else in the state.
    With a viewable entry it sets the page to the index that the entry
    carries and the active source to the entry's source, and it calls the
    host's [onNavigate] callback, when the host passed one, with the entry's
    item. *)
Theorem updatePage_cases (p : Props.t) (viewableItems : list ViewToken) (s : Carousel) :
  (isFullScreen s = true -> updatePage p viewableItems s = s) /\
  (isFullScreen s = false -> viewableItems = [] ->
   updatePage p viewableItems s = set_activeSource None (emit KeyboardDismiss s)) /\
  (isFullScreen s = false ->
   forall entry rest,
     viewableItems = entry :: rest ->
     (forall i, index entry = Some i ->
        page (updatePage p viewableItems s) = i /\
        activeSource (updatePage p viewableItems s) = Some (source (item entry))) /\
     (Props.onNavigate p = true ->
        effects (updatePage p viewableItems s)
        = effects s ++ [KeyboardDismiss; OnNavigate (item entry)])).
Proof.
  unfold updatePage. split; [|split].
  - intros ->. reflexivity.
  - intros -> ->. reflexivity.
  - intros -> entry rest ->. split.
    + intros i ->. destruct (Props.onNavigate p); split; reflexivity.
    + intros ->. destruct (index entry); cbn; rewrite <- app_assoc; reflexivity.
Qed.

(** An entry without an index still reaches [onNavigate], but page and active
    source stay as they were (the guard at line 116). *)
Lemma updatePage_entry_without_index (p : Props.t) (entry : ViewToken)
    (rest : list ViewToken) (s : Carousel) :
  isFullScreen s = false -> index entry = None ->
  page (updatePage p (entry :: rest) s) = page s /\
  activeSource (updatePage p (entry :: rest) s) = activeSource s.
Proof.
  intros Hf Hi. unfold updatePage. rewrite Hf, Hi.
  destruct (Props.onNavigate p); split; reflexivity.
Qed.

(** * Further properties of the component *)

(** ** More on deriving the attachment list *)

Lemma findIndexFrom_found {A : Type} (f : A -> bool) (xs : list A) (i : Z) :
  (exists a, In a xs /\ f a = true) ->
  exists k a,
    (k < List.length xs)%nat /\
    JS.findIndexFrom f xs i = (i + Z.of_nat k)%Z /\
    nth_error xs k = Some a /\ f a = true /\
    (forall j b, (j < k)%nat -> nth_error xs j = Some b -> f b = false).
Proof.
  revert i. induction xs as [|x rest IH]; intros i [a [Hin Ha]]; [destruct Hin|].
  simpl. destruct (f x) eqn:Fx.
  - exists 0%nat, x.
    split; [simpl; lia|]. split; [lia|]. split; [reflexivity|]. split; [exact Fx|].
    intros j b Hj. lia.
  - destruct Hin as [-> | Hin]; [congruence|].
    destruct (IH (i + 1)%Z (ex_intro _ a (conj Hin Ha)))
      as (k & b & Hk & Hidx & Hnth & Hb & Hbefore).
    exists (S k), b.
    split; [simpl; lia|]. split; [lia|]. split; [exact Hnth|]. split; [exact Hb|].
    intros [|j] c Hj Hc; simpl in Hc.
    + congruence.
    + apply (Hbefore j c); [lia | exact Hc].
Qed.

Lemma JS_index_nth {A : Type} (xs : list A) (k : nat) :
  JS.index xs (Z.of_nat k) = nth_error xs k.
Proof.
  unfold JS.index. destruct (Z.of_nat k <? 0)%Z eqn:E.
  - apply Z.ltb_lt in E. lia.
  - now rewrite Nat2Z.id.
Qed.

(** X1. When the derived list is not structurally equal to the stored one
    (lodash [isEqual]) and holds an
    attachment with the requested source, the effect stores the derived list
    and sets the page to the position of the first such attachment, which is a
    valid index; it shows the download button and navigates to that attachment
    (each call only when the host passed the callback), and does not dismiss. *)
Theorem attachmentsEffect_found (p : Props.t) (attachmentsFromReport : list Attachment)
    (s : Carousel) :
  isEqual (attachments s) attachmentsFromReport = false ->
  (exists a, In a attachmentsFromReport /\ source a = Props.source p) ->
  attachments (attachmentsEffect p attachmentsFromReport s) = attachmentsFromReport /\
  (0 <= page (attachmentsEffect p attachmentsFromReport s)
     <= Z.of_nat (List.length attachmentsFromReport) - 1)%Z /\
  exists a,
    JS.index attachmentsFromReport (page (attachmentsEffect p attachmentsFromReport s))
    = Some a /\
    source a = Props.source p /\
    (forall k b,
       (0 <= k < page (attachmentsEffect p attachmentsFromReport s))%Z ->
       JS.index attachmentsFromReport k = Some b -> source b <> Props.source p) /\
    effects (attachmentsEffect p attachmentsFromReport s)
    = effects s
      ++ (if Props.setDownloadButtonVisibility p
          then [SetDownloadButtonVisibility true] else [])
      ++ (if Props.onNavigate p then [OnNavigate a] else []).
Proof.
  intros Hne [a0 [Hin0 Ha0]].
  assert (Hex : exists a, In a attachmentsFromReport /\ compareImage p a = true).
  { exists a0. split; [exact Hin0|]. now apply compareImage_true. }
  destruct (findIndexFrom_found (compareImage p) attachmentsFromReport 0 Hex)
    as (k & a & Hk & Hidx & Hnth & Ha & Hbefore).
  assert (Hfi : JS.findIndex (compareImage p) attachmentsFromReport = Z.of_nat k).
  { unfold JS.findIndex. rewrite Hidx. lia. }
  assert (Hm1 : (Z.of_nat k =? -1)%Z = false) by (apply Z.eqb_neq; lia).
  assert (Hrun : attachmentsEffect p attachmentsFromReport s =
                 let s1 := set_attachments attachmentsFromReport
                             (set_page (Z.of_nat k) s) in
                 let s2 := if Props.setDownloadButtonVisibility p
                           then emit (SetDownloadButtonVisibility true) s1 else s1 in
                 if Props.onNavigate p then emit (OnNavigate a) s2 else s2).
  { unfold attachmentsEffect. rewrite Hne, Hfi, Hm1, JS_index_nth, Hnth. reflexivity. }
  assert (Hpage : page (attachmentsEffect p attachmentsFromReport s) = Z.of_nat k).
  { rewrite Hrun. cbv zeta.
    destruct (Props.setDownloadButtonVisibility p), (Props.onNavigate p); reflexivity. }
  rewrite Hpage. split; [|split; [lia|]].
  - rewrite Hrun. cbv zeta.
    destruct (Props.setDownloadButtonVisibility p), (Props.onNavigate p); reflexivity.
  - exists a. split; [rewrite JS_index_nth; exact Hnth|].
    split; [now apply compareImage_true|]. split.
    + intros j b Hj Hb. apply compareImage_false.
      apply (Hbefore (Z.to_nat j) b); [lia|].
      rewrite <- JS_index_nth, Z2Nat.id by lia. exact Hb.
    + rewrite Hrun. cbv zeta.
      destruct (Props.setDownloadButtonVisibility p), (Props.onNavigate p); cbn;
        rewrite <- ?app_assoc, ?app_nil_r; reflexivity.
Qed.

(** X2. When the requested source is in neither the derived nor the stored
    list (and the two lists are not structurally equal), the effect stores the derived list with
    the page set to [-1], hides the download button when the host passed that
    callback, and calls neither [onNavigate] nor [dismissModal]. *)
Theorem attachmentsEffect_not_found (p : Props.t)
    (attachmentsFromReport : list Attachment) (s : Carousel) :
  isEqual (attachments s) attachmentsFromReport = false ->
  (forall a, In a attachmentsFromReport -> source a <> Props.source p) ->
  (forall a, In a (attachments s) -> source a <> Props.source p) ->
  page (attachmentsEffect p attachmentsFromReport s) = (-1)%Z /\
  attachments (attachmentsEffect p attachmentsFromReport s) = attachmentsFromReport /\
  effects (attachmentsEffect p attachmentsFromReport s)
  = effects s ++ (if Props.setDownloadButtonVisibility p
                  then [SetDownloadButtonVisibility false] else []).
Proof.
  intros Hne Hnew Hold.
  assert (Hfi : JS.findIndex (compareImage p) attachmentsFromReport = (-1)%Z).
  { apply findIndex_none. intros a Ha. apply compareImage_false. auto. }
  assert (Hfind : JS.truthy (find (compareImage p) (attachments s)) = false).
  { destruct (JS.truthy _) eqn:E; [|reflexivity].
    apply find_truthy in E. destruct E as [a [Hin Ha]].
    apply compareImage_true in Ha. now destruct (Hold a Hin). }
  unfold attachmentsEffect. rewrite Hne, Hfi, Hfind. cbn.
  destruct (Props.setDownloadButtonVisibility p); cbn;
    rewrite ?app_nil_r; repeat split; reflexivity.
Qed.

(** X3. A run of the derivation effect that did not end in a dismissal has
    stored the derived list: a second run on the same derived data returns
    the state of the first. *)
Theorem attachmentsEffect_second_run (p : Props.t)
    (attachmentsFromReport : list Attachment) (s : Carousel) :
  ~ In DismissModal (effects s) ->
  ~ In DismissModal (effects (attachmentsEffect p attachmentsFromReport s)) ->
  attachmentsEffect p attachmentsFromReport (attachmentsEffect p attachmentsFromReport s)
  = attachmentsEffect p attachmentsFromReport s.
Proof.
  intros Hclean Hnd. apply attachmentsEffect_guard.
  unfold attachmentsEffect in *.
  destruct (isEqual (attachments s) attachmentsFromReport) eqn:E; [exact E|].
  destruct ((_ =? -1)%Z && _).
  { exfalso. apply Hnd. cbn. apply in_or_app. right. now left. }
  destruct (Props.setDownloadButtonVisibility p);
    destruct (JS.index attachmentsFromReport _);
    destruct (Props.onNavigate p); exact (isEqual_refl attachmentsFromReport).
Qed.

(** ** Pager items, item layout, keys and focus *)

Lemma mapWithIndexFrom_length {A B : Type} (f : A -> Z -> B) (xs : list A) (i : Z) :
  List.length (mapWithIndexFrom f xs i) = List.length xs.
Proof.
  revert i. induction xs as [|a rest IH]; intros i; simpl; [reflexivity|].
  now rewrite IH.
Qed.

Lemma mapWithIndexFrom_nth {A B : Type} (f : A -> Z -> B) (xs : list A) (i : Z)
    (k : nat) :
  nth_error (mapWithIndexFrom f xs i) k
  = option_map (fun a => f a (i + Z.of_nat k)%Z) (nth_error xs k).
Proof.
  revert i k. induction xs as [|a rest IH]; intros i [|k]; simpl; try reflexivity.
  - now rewrite Z.add_0_r.
  - rewrite IH. destruct (nth_error rest k); simpl; [|reflexivity].
    do 2 f_equal. lia.
Qed.

Lemma activeCount_from (pg : Z) (xs : list Attachment) (i : Z) :
  List.length
    (filter PagerItem.isActive
       (mapWithIndexFrom
          (fun item index =>
             {| PagerItem.source := source item;
                PagerItem.index := index;
                PagerItem.isActive := (index =? pg)%Z |}) xs i))
  = if ((i <=? pg) && (pg <? i + Z.of_nat (List.length xs)))%Z then 1%nat else 0%nat.
Proof.
  revert i. induction xs as [|a rest IH]; intros i.
  - simpl. destruct (i <=? pg)%Z eqn:E1; [|reflexivity].
    destruct (pg <? i + 0)%Z eqn:E2; [|reflexivity].
    apply Z.leb_le in E1. apply Z.ltb_lt in E2. lia.
  - cbn [mapWithIndexFrom filter PagerItem.isActive List.length].
    destruct (i =? pg)%Z eqn:Ei.
    + apply Z.eqb_eq in Ei. subst pg. cbn [List.length]. rewrite IH.
      replace (i + 1 <=? i)%Z with false by (symmetry; apply Z.leb_gt; lia).
      replace (i <=? i)%Z with true by (symmetry; apply Z.leb_le; lia).
      replace (i <? i + Z.of_nat (S (List.length rest)))%Z with true
        by (symmetry; apply Z.ltb_lt; lia).
      reflexivity.
    + apply Z.eqb_neq in Ei. rewrite IH.
      destruct (i + 1 <=? pg)%Z eqn:E1, (i <=? pg)%Z eqn:E2;
        rewrite ?Z.leb_le, ?Z.leb_gt in *; try lia; cbn [andb]; try reflexivity.
      destruct (pg <? i + 1 + Z.of_nat (List.length rest))%Z eqn:E3,
               (pg <? i + Z.of_nat (S (List.length rest)))%Z eqn:E4;
        rewrite ?Z.ltb_lt, ?Z.ltb_ge in *; try lia; reflexivity.
Qed.

(** X4. [pagerItems] has one entry per attachment; the entry at position [k]
    carries the source of attachment [k], the index [k], and is active exactly
    when [k] is the page. Hence exactly one entry is active when the page is
    a valid index, and none is otherwise (in particular for page [-1]). *)
Theorem pagerItems_one_active (s : Carousel) :
  List.length (pagerItems s) = List.length (attachments s) /\
  (forall k item,
     JS.index (attachments s) k = Some item ->
     JS.index (pagerItems s) k
     = Some {| PagerItem.source := source item;
               PagerItem.index := k;
               PagerItem.isActive := (k =? page s)%Z |}) /\
  List.length (filter PagerItem.isActive (pagerItems s))
  = if ((0 <=? page s) && (page s <? Z.of_nat (List.length (attachments s))))%Z
    then 1%nat else 0%nat.
Proof.
  unfold pagerItems. split; [apply mapWithIndexFrom_length|]. split.
  - intros k item. unfold JS.index.
    destruct (k <? 0)%Z eqn:E; [discriminate|]. apply Z.ltb_ge in E.
    intros H. rewrite mapWithIndexFrom_nth, H. simpl.
    rewrite Z2Nat.id by lia. reflexivity.
  - apply (activeCount_from (page s) (attachments s) 0).
Qed.

Lemma append_prefix_inj (pre a b : string) :
  String.append pre a = String.append pre b -> a = b.
Proof.
  induction pre as [|c pre IH]; simpl; intros H; [exact H|].
  injection H as H. auto.
Qed.

(** X6. The key of an item never depends on its index: the [index-] fallback
    sits behind [??] on a template string and is never taken. Two items with
    string sources have the same key exactly when the sources are equal; two
    items whose source is neither string nor number have the same key exactly
    when their report action ids print the same, so two such items without an
    id share the key whatever their positions. *)
Theorem extractItemKey_collisions (a b : Attachment) (i j : Z) :
  extractItemKey a i = extractItemKey a j /\
  (forall s1 s2, source a = SourceString s1 -> source b = SourceString s2 ->
     (extractItemKey a i = extractItemKey b j <-> s1 = s2)) /\
  (forall r1 r2, source a = SourceObject r1 -> source b = SourceObject r2 ->
     (extractItemKey a i = extractItemKey b j
      <-> reportActionIDText a = reportActionIDText b)) /\
  (forall r1 r2, source a = SourceObject r1 -> source b = SourceObject r2 ->
     reportActionID a = None -> reportActionID b = None ->
     extractItemKey a i = extractItemKey b j).
Proof.
  unfold extractItemKey. split; [|split; [|split]].
  - destruct (source a); reflexivity.
  - intros s1 s2 -> ->. split; [apply append_prefix_inj | now intros ->].
  - intros r1 r2 -> ->. unfold nullish. split; [apply append_prefix_inj | now intros ->].
  - intros r1 r2 -> -> Ha Hb. unfold nullish, reportActionIDText.
    now rewrite Ha, Hb.
Qed.

(** X7. Outside full screen, a visibility report without entries leaves no
    rendered item focused; a report whose first entry carries an index makes
    focused exactly the items with that entry's source. *)
Theorem updatePage_focus (p : Props.t) (s : Carousel) :
  isFullScreen s = false ->
  (forall it, isFocused (updatePage p [] s) it = false) /\
  (forall entry rest i it,
     index entry = Some i ->
     (isFocused (updatePage p (entry :: rest) s) it = true
      <-> source it = source (item entry))).
Proof.
  intros Hf. unfold updatePage, isFocused. rewrite Hf. split.
  - reflexivity.
  - intros entry rest i it Hi. rewrite Hi.
    destruct (Props.onNavigate p); cbn; rewrite sourceEq_true; split; congruence.
Qed.

(** ** Steps and swipes from start to rest *)

Lemma step_finish_fields (v : StepVariant) (s : Carousel) (d : Z) :
  stepAllowed s d ->
  page (animationFinished (stepPage v d s)) = (page s + d)%Z /\
  offsetX (animationFinished (stepPage v d s))
  = JS.mul (containerWidth s) (inject_Z (page s + d)) /\
  offsetXAnimation (animationFinished (stepPage v d s)) = None /\
  isPagerScrolling (animationFinished (stepPage v d s)) = false /\
  attachments (animationFinished (stepPage v d s)) = attachments s /\
  containerWidth (animationFinished (stepPage v d s)) = containerWidth s /\
  isFullScreen (animationFinished (stepPage v d s)) = isFullScreen s /\
  scrollRef (animationFinished (stepPage v d s)) = scrollRef s /\
  panGestureActive (animationFinished (stepPage v d s)) = panGestureActive s /\
  effects (animationFinished (stepPage v d s)) = effects s.
Proof.
  intros Ha. rewrite (stepPage_valid v s d Ha).
  unfold animateOffsetX, prepareOffset, assignOffsetX, cancelAnimation,
    animationFinished, stepAnimation.
  destruct s as [cw pg atts src arrows off anim cancelled scrolling enabled sc
                 t1 t2 active tx ty vx vy full ref eff].
  destruct v, anim; cbn -[JS.mul inject_Z Z.add]; repeat split; reflexivity.
Qed.

(** X8. A step with a valid target, once its animation has finished, leaves
    the carousel at rest on the target page: the page is [page + delta], the
    scroll offset is the layout offset of that page, no animation is in
    flight, the scrolling flag is clear, and no host callback was called. *)
Theorem step_finishes_at_rest (v : StepVariant) (s : Carousel) (deltaSlide : Z) :
  stepAllowed s deltaSlide ->
  page (animationFinished (stepPage v deltaSlide s)) = (page s + deltaSlide)%Z /\
  offsetX (animationFinished (stepPage v deltaSlide s))
  = ItemLayout.offset
      (getItemLayout (animationFinished (stepPage v deltaSlide s))
         (page (animationFinished (stepPage v deltaSlide s)))) /\
  offsetXAnimation (animationFinished (stepPage v deltaSlide s)) = None /\
  isPagerScrolling (animationFinished (stepPage v deltaSlide s)) = false /\
  effects (animationFinished (stepPage v deltaSlide s)) = effects s.
Proof.
  intros Ha.
  destruct (step_finish_fields v s deltaSlide Ha)
    as (Hp & Ho & Hn & Hs & _ & Hw & _ & _ & _ & He).
  unfold getItemLayout. cbn [ItemLayout.offset].
  rewrite Hp, Ho, Hw. repeat split; assumption.
Qed.

(** X9. An arrow step and the opposite arrow step, each left to finish, bring
    the carousel back to the page it started from, at that page's rest
    offset. *)
Theorem arrow_there_and_back (s : Carousel) (deltaSlide : Z) :
  stepAllowed s deltaSlide -> validTarget s 0 ->
  page (animationFinished
          (cycleThroughAttachments (- deltaSlide)
             (animationFinished (cycleThroughAttachments deltaSlide s))))
  = page s /\
  offsetX (animationFinished
             (cycleThroughAttachments (- deltaSlide)
                (animationFinished (cycleThroughAttachments deltaSlide s))))
  = JS.mul (containerWidth s) (inject_Z (page s)) /\
  attachments (animationFinished
                 (cycleThroughAttachments (- deltaSlide)
                    (animationFinished (cycleThroughAttachments deltaSlide s))))
  = attachments s.
Proof.
  intros Ha Hv0.
  destruct (step_finish_fields Explicit s deltaSlide Ha)
    as (Hp & _ & _ & _ & Hat & Hw & Hf & Hr & _ & _).
  cbn [stepPage] in *.
  set (s1 := animationFinished (cycleThroughAttachments deltaSlide s)) in *.
  assert (Hb : stepAllowed s1 (- deltaSlide)).
  { destruct Ha as (Hf0 & Hr0 & _). unfold stepAllowed, validTarget in *.
    rewrite Hf, Hr, Hp, Hat. repeat split; try assumption; lia. }
  destruct (step_finish_fields Explicit s1 (- deltaSlide) Hb)
    as (Hp' & Ho' & _ & _ & Hat' & _).
  cbn [stepPage] in *.
  rewrite Hp', Ho', Hat', Hp, Hw, Hat.
  replace (page s + deltaSlide + - deltaSlide)%Z with (page s) by lia.
  repeat split; reflexivity.
Qed.

Lemma acceptUpdate_frame (evt : PanUpdateEvent) (s : Carousel) :
  panGestureActive (acceptUpdate evt s) = panGestureActive s /\
  isFullScreen (acceptUpdate evt s) = isFullScreen s /\
  scrollRef (acceptUpdate evt s) = scrollRef s /\
  effects (acceptUpdate evt s) = effects s /\
  firstTouch (acceptUpdate evt s) = firstTouch s /\
  secondTouch (acceptUpdate evt s) = secondTouch s.
Proof.
  unfold acceptUpdate, assignOffsetX, cancelAnimation.
  destruct (offsetXAnimation s); cbn -[tentativeOffset]; repeat split; reflexivity.
Qed.

Lemma onUpdate_accepted (evt : PanUpdateEvent) (s : Carousel) :
  panGestureActive s = true -> ~ containerWidth s == 0 -> scrollRef s = true ->
  validOffset s (tentativeOffset evt s) ->
  onUpdate evt s = acceptUpdate evt s.
Proof.
  intros Ha Hw Hr Hv.
  destruct (onUpdate_cases evt s Ha) as [[_ [H|[H|H]]]|[Heq _]];
    [contradiction | congruence | contradiction | exact Heq].
Qed.

Lemma release_after_accept (evt : PanUpdateEvent) (s : Carousel) :
  panGestureActive s = true ->
  onTouchesUp (acceptUpdate evt s) =
    resetPan
      (if JS.lt (JS.div (containerWidth s) 3) (Qabs (evt_translationX evt))
          || JS.lt 100 (Qabs (evt_velocityX evt))
       then if JS.lt 0 (evt_translationX evt)
            then gotoAttachments (-1) (clearTouches (acceptUpdate evt s))
            else gotoAttachments 1 (clearTouches (acceptUpdate evt s))
       else gotoAttachments 0 (clearTouches (acceptUpdate evt s))).
Proof.
  intros Ha.
  destruct (acceptUpdate_fields evt s) as (_ & Hs & Htx & _ & Hvx & _ & Hw & _ & _).
  destruct (acceptUpdate_frame evt s) as (Hact & _).
  rewrite onTouchesUp_active by congruence.
  now rewrite Htx, Hvx, Hw.
Qed.

Lemma clearTouches_frame (t : Carousel) :
  isFullScreen (clearTouches t) = isFullScreen t /\
  scrollRef (clearTouches t) = scrollRef t /\
  page (clearTouches t) = page t /\
  attachments (clearTouches t) = attachments t /\
  containerWidth (clearTouches t) = containerWidth t.
Proof. repeat split; reflexivity. Qed.

Lemma accepted_state_allows (evt : PanUpdateEvent) (s : Carousel) (d : Z) :
  stepAllowed s d -> stepAllowed (clearTouches (acceptUpdate evt s)) d.
Proof.
  intros (Hf & Hr & Hv).
  destruct (acceptUpdate_fields evt s) as (_ & _ & _ & _ & _ & _ & _ & Hat & Hp).
  destruct (acceptUpdate_frame evt s) as (_ & Hf' & Hr' & _).
  destruct (clearTouches_frame (acceptUpdate evt s)) as (E1 & E2 & E3 & E4 & _).
  unfold stepAllowed, validTarget in *.
  rewrite E1, E2, E3, E4, Hf', Hr', Hat, Hp. auto.
Qed.

Lemma swipe_result (evt : PanUpdateEvent) (s : Carousel) (d : Z) :
  stepAllowed s d -> offsetXAnimation s = None -> cancelledCallbacks s = [] ->
  onTouchesUp (acceptUpdate evt s)
  = resetPan (gotoAttachments d (clearTouches (acceptUpdate evt s))) ->
  page (animationFinished (onTouchesUp (acceptUpdate evt s))) = (page s + d)%Z /\
  offsetX (animationFinished (onTouchesUp (acceptUpdate evt s)))
  = JS.mul (containerWidth s) (inject_Z (page s + d)) /\
  offsetXAnimation (animationFinished (onTouchesUp (acceptUpdate evt s))) = None /\
  cancelledCallbacks (animationFinished (onTouchesUp (acceptUpdate evt s))) = [] /\
  isPagerScrolling (animationFinished (onTouchesUp (acceptUpdate evt s))) = false /\
  panGestureActive (animationFinished (onTouchesUp (acceptUpdate evt s))) = false.
Proof.
  intros Ha Hanim Hcanc Hrel. rewrite Hrel.
  destruct (released_step_fields _ d (accepted_state_allows evt s d Ha))
    as (_ & Hp & Ho & Hn & Hs & Hact).
  destruct (acceptUpdate_fields evt s) as (_ & _ & _ & _ & _ & _ & Hw & _ & Hpg).
  destruct (clearTouches_frame (acceptUpdate evt s)) as (_ & _ & E3 & _ & E5).
  rewrite E3, E5, Hpg, Hw in *.
  split; [exact Hp|]. split; [exact Ho|]. split; [exact Hn|].
  split; [|split; [exact Hs | exact Hact]].
  destruct (accepted_state_allows evt s d Ha) as (Hf & Hr & Hv).
  rewrite (gotoAttachments_valid _ d Hf Hr Hv).
  clear - Hanim Hcanc. revert Hanim Hcanc.
  unfold animateOffsetX, cancelAnimation, animationFinished, clearTouches, acceptUpdate,
    assignOffsetX, cancelAnimation, resetPan, stepAnimation.
  destruct s as [cw pg atts src arrows off anim cancelled scrolling enabled sc
                 t1 t2 active tx ty vx vy full ref eff].
  cbn [offsetXAnimation cancelledCallbacks]. intros -> ->. reflexivity.
Qed.



(** X12. With no animation in flight and no superseded callback pending, on a
    valid page, a pan update that [onUpdate] accepts but that stays within
    both release bounds snaps back: the release animates to the current page,
    and when the animation finishes the page is unchanged, the offset is the
    page's rest offset, nothing is pending and the gesture is idle. *)
Theorem short_swipe_snaps_back (evt : PanUpdateEvent) (s : Carousel) :
  panGestureActive s = true -> stepAllowed s 0 ->
  offsetXAnimation s = None -> cancelledCallbacks s = [] ->
  ~ containerWidth s == 0 ->
  validOffset s (tentativeOffset evt s) ->
  ~ eventPastThreshold s evt ->
  page (animationFinished (onTouchesUp (onUpdate evt s))) = page s /\
  offsetX (animationFinished (onTouchesUp (onUpdate evt s)))
  = JS.mul (containerWidth s) (inject_Z (page s)) /\
  offsetXAnimation (animationFinished (onTouchesUp (onUpdate evt s))) = None /\
  cancelledCallbacks (animationFinished (onTouchesUp (onUpdate evt s))) = [] /\
  isPagerScrolling (animationFinished (onTouchesUp (onUpdate evt s))) = false /\
  panGestureActive (animationFinished (onTouchesUp (onUpdate evt s))) = false.
Proof.
  intros Ha Hal Hanim Hcanc Hw Hoff Hthr.
  rewrite (onUpdate_accepted evt s Ha Hw (proj1 (proj2 Hal)) Hoff).
  assert (Hrel : onTouchesUp (acceptUpdate evt s)
                 = resetPan (gotoAttachments 0 (clearTouches (acceptUpdate evt s)))).
  { rewrite (release_after_accept evt s Ha).
    destruct (JS.lt (JS.div (containerWidth s) 3) (Qabs (evt_translationX evt))
              || JS.lt 100 (Qabs (evt_velocityX evt))) eqn:Ht; [|reflexivity].
    exfalso. apply Hthr. rewrite orb_true_iff, !JS_lt_true in Ht. exact Ht. }
  destruct (swipe_result evt s 0 Hal Hanim Hcanc Hrel) as (Hp & Ho & Hrest).
  rewrite Hp, Ho, Z.add_0_r. repeat split; try reflexivity; apply Hrest.
Qed.

(** ** What the handlers leave alone *)

Lemma stepPage_keeps_gesture (v : StepVariant) (d : Z) (s : Carousel) :
  gestureFields (stepPage v d s) = gestureFields s /\
  zoomFields (stepPage v d s) = zoomFields s.
Proof.
  destruct v; cbn [stepPage]; unfold cycleThroughAttachments, gotoAttachments,
    animateOffsetX, assignOffsetX, cancelAnimation, gestureFields, zoomFields;
    break_state s; cbn -[JS.mul inject_Z Z.add JS.index];
    split_tests; split; reflexivity.
Qed.

Lemma host_handlers_keep_gesture (p : Props.t) (s : Carousel) :
  (forall l, gestureFields (attachmentsEffect p l s) = gestureFields s /\
             zoomFields (attachmentsEffect p l s) = zoomFields s) /\
  (forall l, gestureFields (updatePage p l s) = gestureFields s /\
             zoomFields (updatePage p l s) = zoomFields s) /\
  (forall w, gestureFields (onLayout w s) = gestureFields s /\
             zoomFields (onLayout w s) = zoomFields s) /\
  (gestureFields (attachScrollRef s) = gestureFields s /\
   zoomFields (attachScrollRef s) = zoomFields s) /\
  (gestureFields (animationFinished s) = gestureFields s /\
   zoomFields (animationFinished s) = zoomFields s) /\
  (gestureFields (animationCancelled s) = gestureFields s /\
   zoomFields (animationCancelled s) = zoomFields s).
Proof.
  unfold attachmentsEffect, updatePage, onLayout, attachScrollRef, animationFinished,
    animationCancelled, runCallback, gestureFields, zoomFields.
  break_state s. cbn -[JS.findIndex JS.index isEqual find JS.lt].
  repeat split; intros; split_tests; reflexivity.
Qed.

Lemma zoom_handlers_keep_gesture (c : bool) (q : Q) (s : Carousel) :
  gestureFields (handleScaleChange c q s) = gestureFields s /\
  gestureFields (handleTap s) = gestureFields s /\
  zoomFields (handleTap s) = zoomFields s.
Proof.
  unfold handleScaleChange, handleTap, toggleArrows, gestureFields, zoomFields.
  break_state s. cbn -[JS.eq]. repeat split; split_tests; reflexivity.
Qed.

Lemma gesture_handlers_keep_zoom (s : Carousel) :
  (forall evt, zoomFields (onUpdate evt s) = zoomFields s) /\
  zoomFields (onTouchesUp s) = zoomFields s /\
  (forall evt s', onTouchesMove evt s = Some s' -> zoomFields s' = zoomFields s).
Proof.
  split; [|split].
  - intros evt. unfold onUpdate, assignOffsetX, cancelAnimation, zoomFields.
    break_state s. cbn -[JS.lt JS.eq JS.mul JS.sub inject_Z].
    split_tests; reflexivity.
  - unfold onTouchesUp.
    set (s1 := set_secondTouch None (set_firstTouch None s)).
    change (zoomFields s) with (zoomFields s1).
    destruct (negb (panGestureActive s1)); [reflexivity|].
    change (zoomFields (resetPan ?t)) with (zoomFields t).
    destruct (isPagerScrolling s1); [|reflexivity].
    destruct (_ || _); [destruct (JS.lt 0 _)|];
      apply (stepPage_keeps_gesture Hard _ s1).
  - intros evt s'. unfold onTouchesMove, zoomFields.
    break_state s. touch_cases; intros H; try discriminate;
      injection H as <-; reflexivity.
Qed.

(** ** Invariants of the pan arbiter and of the zoom flag *)

Lemma arbiter_of_fields (s s' : Carousel) :
  gestureFields s' = gestureFields s -> arbiterConsistent s -> arbiterConsistent s'.
Proof.
  unfold gestureFields, arbiterConsistent. intros H.
  injection H as -> -> -> -> -> -> ->. auto.
Qed.

Lemma onTouchesMove_keeps_arbiter (evt : GestureTouchEvent) (s s' : Carousel) :
  arbiterConsistent s -> onTouchesMove evt s = Some s' -> arbiterConsistent s'.
Proof.
  unfold onTouchesMove, arbiterConsistent. break_state s.
  cbn [panGestureActive translationX translationY velocityX velocityY
       firstTouch secondTouch].
  intros [Hacc Htouch].
  touch_cases; intros H; try discriminate; injection H as <-;
    cbn; split; intros E; try discriminate; auto.
Qed.

Lemma onUpdate_keeps_arbiter (evt : PanUpdateEvent) (s : Carousel) :
  arbiterConsistent s -> arbiterConsistent (onUpdate evt s).
Proof.
  intros Hinv. destruct (panGestureActive s) eqn:Ha.
  - destruct (onUpdate_cases evt s Ha) as [[Heq _]|[Heq _]]; rewrite Heq; [exact Hinv|].
    destruct (acceptUpdate_frame evt s) as (Hact & _ & _ & _ & H1 & H2).
    unfold arbiterConsistent. rewrite Hact, H1, H2, Ha.
    split; [discriminate | apply Hinv].
  - unfold onUpdate. now rewrite Ha.
Qed.

Lemma onTouchesUp_idle (s : Carousel) :
  firstTouch (onTouchesUp s) = None /\ secondTouch (onTouchesUp s) = None /\
  panGestureActive (onTouchesUp s) = false /\
  (panGestureActive s = true ->
   translationX (onTouchesUp s) = 0 /\ translationY (onTouchesUp s) = 0 /\
   velocityX (onTouchesUp s) = 0 /\ velocityY (onTouchesUp s) = 0) /\
  (panGestureActive s = false -> onTouchesUp s = clearTouches s).
Proof.
  unfold onTouchesUp.
  set (s1 := set_secondTouch None (set_firstTouch None s)).
  change (panGestureActive s) with (panGestureActive s1).
  destruct (panGestureActive s1) eqn:Ha; cbn [negb].
  - assert (Hg : forall d, gestureFields (gotoAttachments d s1) = gestureFields s1)
      by (intros d; apply (stepPage_keeps_gesture Hard d s1)).
    assert (Ht : forall t, gestureFields t = gestureFields s1 ->
                 firstTouch (resetPan t) = None /\ secondTouch (resetPan t) = None).
    { intros t H. unfold gestureFields in H. injection H as _ _ _ _ _ H1 H2.
      split; [exact H1 | exact H2]. }
    assert (Hs1 : gestureFields s1 = gestureFields s1) by reflexivity.
    destruct (isPagerScrolling s1);
      [destruct (_ || _); [destruct (JS.lt 0 _)|]|];
      (split; [|split; [|split; [|split]]];
       [ apply Ht; auto | apply Ht; auto | reflexivity
       | intros _; repeat split; reflexivity | discriminate ]).
  - repeat split; try reflexivity; try exact Ha; discriminate.
Qed.

Lemma onTouchesUp_keeps_arbiter (s : Carousel) :
  arbiterConsistent s -> arbiterConsistent (onTouchesUp s).
Proof.
  intros [Hacc _].
  destruct (onTouchesUp_idle s) as (H1 & H2 & H3 & Hzero & Hsame).
  split; [|intros _; exact H2].
  intros _. destruct (panGestureActive s) eqn:Ha; [now apply Hzero|].
  rewrite (Hsame eq_refl). exact (Hacc eq_refl).
Qed.

Lemma handle_keeps_arbiter (p : Props.t) (c : bool) (e : Event) (s s' : Carousel) :
  arbiterConsistent s -> handle p c e s = Some s' -> arbiterConsistent s'.
Proof.
  intros Hinv.
  destruct (host_handlers_keep_gesture p s) as (Heff & Hupd & Hlay & Hatt & Hfin & Hcan).
  assert (Hkeep : gestureFields s' = gestureFields s -> arbiterConsistent s').
  { intros E. exact (arbiter_of_fields s s' E Hinv). }
  destruct e; cbn [handle]; intros H; try (injection H as <-).
  - apply Hkeep, Heff.
  - apply Hkeep, Hlay.
  - apply Hkeep, Hatt.
  - apply Hkeep, Hupd.
  - apply Hkeep, (stepPage_keeps_gesture Explicit deltaSlide s).
  - apply Hkeep, (zoom_handlers_keep_gesture c 0 s).
  - apply Hkeep, (zoom_handlers_keep_gesture c newScale s).
  - exact (onTouchesMove_keeps_arbiter evt s s' Hinv H).
  - now apply onUpdate_keeps_arbiter.
  - now apply onTouchesUp_keeps_arbiter.
  - apply Hkeep, Hfin.
  - apply Hkeep, Hcan.
  - apply Hkeep. reflexivity.
Qed.

(** X13. In every state that a run of events reaches from the first render,
    an inactive pan gesture has all four translation and velocity
    accumulators at zero, and a second touch sample is recorded only next to
    a first one. *)
Theorem arbiter_consistent_on_runs (p : Props.t) (canUseTouchScreen arrows : bool)
    (es : list Event) (s : Carousel) :
  run p canUseTouchScreen es (initialState p canUseTouchScreen arrows) = Some s ->
  (panGestureActive s = false ->
   translationX s = 0 /\ translationY s = 0 /\ velocityX s = 0 /\ velocityY s = 0) /\
  (firstTouch s = None -> secondTouch s = None).
Proof.
  assert (Hinit : arbiterConsistent (initialState p canUseTouchScreen arrows)).
  { split; intros _; repeat split; reflexivity. }
  revert Hinit. generalize (initialState p canUseTouchScreen arrows) as s0.
  induction es as [|e rest IH]; intros s0 Hinv Hrun; cbn [run] in Hrun.
  - injection Hrun as <-. exact Hinv.
  - destruct (handle p canUseTouchScreen e s0) as [s1|] eqn:He; [|discriminate].
    exact (IH s1 (handle_keeps_arbiter p canUseTouchScreen e s0 s1 Hinv He) Hrun).
Qed.

Lemma handle_keeps_zoom (p : Props.t) (c : bool) (e : Event) (s s' : Carousel) :
  zoomConsistent c s -> handle p c e s = Some s' -> zoomConsistent c s'.
Proof.
  intros Hinv.
  assert (Hkeep : zoomFields s' = zoomFields s -> zoomConsistent c s').
  { unfold zoomFields, zoomConsistent in *. intros E. injection E as -> ->. exact Hinv. }
  destruct (host_handlers_keep_gesture p s) as (Heff & Hupd & Hlay & Hatt & Hfin & Hcan).
  destruct (gesture_handlers_keep_zoom s) as (Hu & Hup & Hmv).
  destruct e; cbn [handle]; intros H; try (injection H as <-).
  - apply Hkeep, Heff.
  - apply Hkeep, Hlay.
  - apply Hkeep, Hatt.
  - apply Hkeep, Hupd.
  - apply Hkeep, (stepPage_keeps_gesture Explicit deltaSlide s).
  - apply Hkeep, (zoom_handlers_keep_gesture c 0 s).
  - clear Hkeep. unfold zoomConsistent, handleScaleChange, toggleArrows in *.
    destruct (JS.eq newScale (scale s)) eqn:E; [exact Hinv|].
    cbn [isScrollEnabled scale set_scale].
    destruct (Bool.eqb (isScrollEnabled s) (JS.eq newScale 1 && c)) eqn:Eb.
    + apply Bool.eqb_prop in Eb. exact Eb.
    + reflexivity.
  - apply Hkeep, (Hmv evt s' H).
  - apply Hkeep, Hu.
  - apply Hkeep, Hup.
  - apply Hkeep, Hfin.
  - apply Hkeep, Hcan.
  - apply Hkeep. reflexivity.
Qed.

(** X14. In every state that a run of events reaches from the first render,
    the scroll-enabled flag is true exactly when the stored zoom scale is 1
    and the device has a touch screen. On a device without a touch screen a
    tap therefore never changes the state (the arrows are not toggled). *)
Theorem scroll_enabled_tracks_scale (p : Props.t) (canUseTouchScreen arrows : bool)
    (es : list Event) (s : Carousel) :
  run p canUseTouchScreen es (initialState p canUseTouchScreen arrows) = Some s ->
  isScrollEnabled s = JS.eq (scale s) 1 && canUseTouchScreen /\
  (canUseTouchScreen = false -> handleTap s = s).
Proof.
  intros Hrun.
  assert (Hz : zoomConsistent canUseTouchScreen s).
  { assert (Hinit : zoomConsistent canUseTouchScreen
                      (initialState p canUseTouchScreen arrows)) by reflexivity.
    revert Hinit Hrun. generalize (initialState p canUseTouchScreen arrows) as s0.
    induction es as [|e rest IH]; intros s0 Hinv Hrun; cbn [run] in Hrun.
    - injection Hrun as <-. exact Hinv.
    - destruct (handle p canUseTouchScreen e s0) as [s1|] eqn:He; [|discriminate].
      exact (IH s1 (handle_keeps_zoom p canUseTouchScreen e s0 s1 Hinv He) Hrun). }
  split; [exact Hz|].
  intros ->. unfold handleTap. unfold zoomConsistent in Hz.
  rewrite Hz, andb_false_r. reflexivity.
Qed.

(** ** A whole gesture, and the decisions of the touch handlers *)

Lemma onUpdate_step (evt : PanUpdateEvent) (s : Carousel) :
  onUpdate evt s = s \/
  (onUpdate evt s = acceptUpdate evt s /\ validOffset s (tentativeOffset evt s)).
Proof.
  destruct (panGestureActive s) eqn:Ha.
  - destruct (onUpdate_cases evt s Ha) as [[Heq _]|[Heq (_ & _ & Hv)]]; auto.
  - left. unfold onUpdate. now rewrite Ha.
Qed.

(** X15. Over a whole stream of pan updates the scroll offset stays inside
    [0 .. containerWidth * (length-1)] once it is inside, while the page, the
    attachment list, the measured width and the trace of host calls do not
    change: gesture updates alone never commit a page. *)
Theorem onUpdates_keep_offset_valid (evts : list PanUpdateEvent) (s : Carousel) :
  validOffset s (offsetX s) ->
  validOffset (onUpdates evts s) (offsetX (onUpdates evts s)) /\
  page (onUpdates evts s) = page s /\
  attachments (onUpdates evts s) = attachments s /\
  containerWidth (onUpdates evts s) = containerWidth s /\
  effects (onUpdates evts s) = effects s.
Proof.
  unfold onUpdates. revert s.
  induction evts as [|evt rest IH]; intros s Hv; cbn [fold_left].
  - repeat split; try reflexivity; apply Hv.
  - assert (Hstep : validOffset (onUpdate evt s) (offsetX (onUpdate evt s)) /\
                    page (onUpdate evt s) = page s /\
                    attachments (onUpdate evt s) = attachments s /\
                    containerWidth (onUpdate evt s) = containerWidth s /\
                    effects (onUpdate evt s) = effects s).
    { destruct (onUpdate_step evt s) as [Heq|[Heq Hin]]; rewrite Heq.
      - repeat split; try reflexivity; apply Hv.
      - destruct (acceptUpdate_fields evt s)
          as (Ho & _ & _ & _ & _ & _ & Hw & Hat & Hp).
        destruct (acceptUpdate_frame evt s) as (_ & _ & _ & He & _).
        unfold validOffset. rewrite Ho, Hw, Hat, Hp, He.
        repeat split; try reflexivity; apply Hin. }
    destruct Hstep as (Hv1 & Hp1 & Hat1 & Hw1 & He1).
    destruct (IH (onUpdate evt s) Hv1) as (Hv2 & Hp2 & Hat2 & Hw2 & He2).
    rewrite Hp2, Hat2, Hw2, He2, Hp1, Hat1, Hw1, He1.
    split; [exact Hv2|]. repeat split; reflexivity.
Qed.

(** X16. At zoom scale 1, with one touch sample recorded, the next touch-move
    records the last touch of the event as second sample and activates the pan
    gesture exactly when the horizontal distance between the two samples, as
    the runtime computes it, exceeds the vertical one; a move that is at
    least as vertical as horizontal is recorded without activating. *)
Theorem second_sample_decides (evt : GestureTouchEvent) (s : Carousel)
    (first touch : Point) :
  isPagerScrolling s = false -> panGestureActive s = false ->
  firstTouch s = Some first -> secondTouch s = None -> scale s == 1 ->
  JS.lastElement (allTouches evt) = Some touch ->
  (Qabs (JS.sub (y touch) (y first)) < Qabs (JS.sub (x touch) (x first)) ->
   onTouchesMove evt s
   = Some (emit StateActivate
             (set_panGestureActive true
                (set_secondTouch (Some {| x := x touch; y := y touch |}) s)))) /\
  (Qabs (JS.sub (x touch) (x first)) <= Qabs (JS.sub (y touch) (y first)) ->
   onTouchesMove evt s
   = Some (set_secondTouch (Some {| x := x touch; y := y touch |}) s)).
Proof.
  intros Hs Ha H1 H2 Hsc Hlast. unfold onTouchesMove.
  assert (Hz : JS.lt (scale s) 1 = false).
  { apply JS_lt_false. rewrite Hsc. apply Qle_refl. }
  assert (He : JS.eq (scale s) 1 = true) by now apply JS_eq_true.
  rewrite Hs, Ha, H1, H2, Hz, Hlast. cbn [JS.truthy andb option_map].
  change (firstTouch (set_secondTouch ?v s)) with (firstTouch s).
  change (secondTouch (set_secondTouch ?v s)) with v.
  change (scale (set_secondTouch ?v s)) with (scale s).
  rewrite H1, He. cbn [x y].
  split; intros Hd.
  - apply JS_lt_true in Hd. now rewrite Hd.
  - apply JS_lt_false in Hd. now rewrite Hd.
Qed.

(** X17. A touch-move never activates the pan gesture while the content is
    zoomed in (scale above 1), and never on the first sample of a gesture (no
    sample recorded yet) at scale 1 or above: the active flag and the trace
    of calls are unchanged, so [state.activate()] is not called. *)
Theorem touch_move_without_activation (evt : GestureTouchEvent) (s s' : Carousel) :
  1 < scale s \/ (firstTouch s = None /\ secondTouch s = None /\ 1 <= scale s) ->
  onTouchesMove evt s = Some s' ->
  panGestureActive s' = panGestureActive s /\ effects s' = effects s.
Proof.
  intros Hcase.
  assert (Hz : JS.lt (scale s) 1 = false).
  { apply JS_lt_false. destruct Hcase as [H|(_ & _ & H)]; [apply Qlt_le_weak|]; exact H. }
  assert (Hne : 1 < scale s -> JS.eq (scale s) 1 = false).
  { intros H. apply JS_eq_false. intros E. rewrite E in H. discriminate. }
  unfold onTouchesMove. rewrite Hz.
  destruct Hcase as [Hzoom | (Hfirst & Hsecond & _)].
  - specialize (Hne Hzoom). clear Hzoom Hz. revert Hne. break_state s.
    cbn [scale]. intros Hne.
    cbn -[JS.lt JS.eq JS.lastElement Qabs JS.sub].
    destruct scrolling, active, t1, t2;
      cbn -[JS.lt JS.eq JS.lastElement Qabs JS.sub];
      try (intros H; injection H as <-; split; reflexivity);
      destruct (JS.lastElement (allTouches evt));
      cbn -[JS.lt JS.eq JS.lastElement Qabs JS.sub]; rewrite ?Hne;
      cbn -[JS.lt JS.eq JS.lastElement Qabs JS.sub];
      intros H; try discriminate; injection H as <-; split; reflexivity.
  - clear Hz Hne. revert Hfirst Hsecond. break_state s.
    cbn [firstTouch secondTouch]. intros -> ->.
    cbn -[JS.lt JS.eq JS.lastElement Qabs JS.sub].
    destruct scrolling, active;
      cbn -[JS.lt JS.eq JS.lastElement Qabs JS.sub];
      try (intros H; injection H as <-; split; reflexivity);
      destruct (JS.lastElement (allTouches evt));
      cbn -[JS.lt JS.eq JS.lastElement Qabs JS.sub];
      intros H; try discriminate; injection H as <-; split; reflexivity.
Qed.

(** X18. [onTouchesMove] fails (reads a property of [undefined]) exactly when
    the event carries no touch and the handler gets as far as sampling: the
    pager is not scrolling, the gesture is not active, fewer than two samples
    are recorded and the scale is not below 1. With at least one touch in the
    event it always returns. *)
Theorem onTouchesMove_failure (evt : GestureTouchEvent) (s : Carousel) :
  onTouchesMove evt s = None <->
  allTouches evt = [] /\ isPagerScrolling s = false /\ panGestureActive s = false /\
  (firstTouch s = None \/ secondTouch s = None) /\ 1 <= scale s.
Proof.
  assert (Hlast : JS.lastElement (allTouches evt) = None <-> allTouches evt = []).
  { unfold JS.lastElement. split.
    - destruct (rev (allTouches evt)) eqn:E; [|discriminate]. intros _.
      rewrite <- (rev_involutive (allTouches evt)), E. reflexivity.
    - intros ->. reflexivity. }
  rewrite <- Hlast, <- JS_lt_false. unfold onTouchesMove. break_state s.
  cbn -[JS.lt JS.eq JS.lastElement Qabs JS.sub].
  destruct scrolling, active, t1, t2;
    cbn -[JS.lt JS.eq JS.lastElement Qabs JS.sub];
    try (split; [discriminate | intros (_ & H1 & H2 & H3 & _);
                 try discriminate; destruct H3; discriminate]);
    destruct (JS.lt sc 1);
    try (split; [discriminate | intros (_ & _ & _ & _ & H); discriminate]);
    destruct (JS.lastElement (allTouches evt));
    cbn -[JS.lt JS.eq JS.lastElement Qabs JS.sub];
    try (split; [|intros (H & _); discriminate]; split_tests; discriminate);
    (split; [intros _|reflexivity]; repeat split; auto).
Qed.

(** X19. Lifting the finger never commits a page by itself: whatever the
    state, after [onTouchesUp] both touch samples are cleared and the gesture
    is inactive, while the page, the attachment list, the active source, the
    scroll offset and the trace of host calls are as before. *)
Theorem onTouchesUp_commits_nothing (s : Carousel) :
  firstTouch (onTouchesUp s) = None /\ secondTouch (onTouchesUp s) = None /\
  panGestureActive (onTouchesUp s) = false /\
  page (onTouchesUp s) = page s /\ attachments (onTouchesUp s) = attachments s /\
  activeSource (onTouchesUp s) = activeSource s /\
  offsetX (onTouchesUp s) = offsetX s /\ effects (onTouchesUp s) = effects s.
Proof.
  destruct (onTouchesUp_idle s) as (H1 & H2 & H3 & _).
  split; [exact H1|]. split; [exact H2|]. split; [exact H3|].
  unfold onTouchesUp, gotoAttachments, animateOffsetX, cancelAnimation. break_state s.
  cbn -[JS.lt JS.index Qabs JS.div JS.mul inject_Z Z.add].
  destruct active; cbn -[JS.lt JS.index Qabs JS.div JS.mul inject_Z Z.add];
    [|repeat split; reflexivity].
  destruct scrolling; cbn -[JS.lt JS.index Qabs JS.div JS.mul inject_Z Z.add];
    [|repeat split; reflexivity].
  destruct (_ || _); [destruct (JS.lt 0 tx)|];
    destruct full; cbn -[JS.lt JS.index Qabs JS.div JS.mul inject_Z Z.add];
    try (repeat split; reflexivity);
    destruct (negb _ || negb _); cbn -[JS.lt JS.index Qabs JS.div JS.mul inject_Z Z.add];
    try (repeat split; reflexivity);
    destruct anim; repeat split; reflexivity.
Qed.

(** X20. When the jump chosen at release is refused (full screen, list not
    mounted or no such page, for each of the three deltas), a released
    mid-scroll gesture starts no animation and leaves the scrolling flag set;
    from then on every touch-move is ignored. *)
Theorem refused_release_keeps_flag (s : Carousel) :
  panGestureActive s = true -> isPagerScrolling s = true ->
  (forall d, ~ stepAllowed s d) ->
  onTouchesUp s = resetPan (clearTouches s) /\
  isPagerScrolling (onTouchesUp s) = true /\
  offsetXAnimation (onTouchesUp s) = offsetXAnimation s /\
  (forall evt, onTouchesMove evt (onTouchesUp s) = Some (onTouchesUp s)).
Proof.
  intros Ha Hs Hno.
  assert (Hgo : forall d, gotoAttachments d (clearTouches s) = clearTouches s).
  { intros d. apply (step_refused Hard (clearTouches s) d). exact (Hno d). }
  assert (Heq : onTouchesUp s = resetPan (clearTouches s)).
  { rewrite (onTouchesUp_active s Ha Hs).
    destruct (_ || _); [destruct (JS.lt 0 _)|]; now rewrite Hgo. }
  rewrite Heq. split; [reflexivity|].
  split; [exact Hs|]. split; [reflexivity|].
  intros evt. apply onTouchesMove_ignored. left. exact Hs.
Qed.

(** ** Zoom reports and taps *)

(** X21. Reporting the same scale twice is the same as reporting it once. *)
Theorem handleScaleChange_idempotent (canUseTouchScreen : bool) (newScale : Q)
    (s : Carousel) :
  handleScaleChange canUseTouchScreen newScale
    (handleScaleChange canUseTouchScreen newScale s)
  = handleScaleChange canUseTouchScreen newScale s.
Proof.
  assert (Hq : JS.eq newScale newScale = true) by (apply JS_eq_true; reflexivity).
  unfold handleScaleChange at 2 3.
  destruct (JS.eq newScale (scale s)) eqn:E.
  - unfold handleScaleChange. now rewrite E.
  - destruct (Bool.eqb _ _); unfold handleScaleChange, toggleArrows;
      cbn [scale set_scale set_isScrollEnabled set_shouldShowArrows];
      now rewrite Hq.
Qed.

(** X22. While scrolling is enabled a tap toggles the arrows, so two taps
    restore the state; while it is disabled (zoomed in, or no touch screen) a
    tap changes nothing. *)
Theorem handleTap_twice (s : Carousel) :
  handleTap (handleTap s) = s /\
  (isScrollEnabled s = false -> handleTap s = s) /\
  (isScrollEnabled s = true ->
   shouldShowArrows (handleTap s) = negb (shouldShowArrows s)).
Proof.
  unfold handleTap, toggleArrows. break_state s. cbn.
  destruct enabled; cbn; [|repeat split; try reflexivity; discriminate].
  rewrite negb_involutive. repeat split; try reflexivity; discriminate.
Qed.


End Properties.

(** * Worked examples

    The examples run on [Sample.runtime]: exact arithmetic, which is what
    binary64 computes on the numbers used here (integers, and 300 / 3). *)

#[local] Existing Instance Sample.runtime.

(** ** The sample states are reached from the first render *)

Lemma Sample_mounted_reached :
  run Sample.props true [AttachmentsDerived [Sample.A; Sample.B; Sample.C]; Layout 300; ListRendered] Sample.start
  = Some Sample.mounted.
Proof. vm_compute. reflexivity. Qed.

Lemma Sample_swiping_reached :
  run Sample.props true [TouchesMove (Sample.touch 200 100); TouchesMove (Sample.touch 180 101)] Sample.mounted
  = Some Sample.swiping.
Proof. vm_compute. reflexivity. Qed.

Lemma Sample_movedDown_reached :
  run Sample.props true [TouchesMove (Sample.touch 200 100); TouchesMove (Sample.touch 201 140)] Sample.mounted
  = Some Sample.movedDown.
Proof. vm_compute. reflexivity. Qed.

Lemma step_outside_is_noop_witness :
  cycleThroughAttachments 2 Sample.mounted = Sample.mounted /\
  gotoAttachments 2 Sample.mounted = Sample.mounted.
Proof.
  apply (step_outside_is_noop Sample.mounted 2). right. vm_compute. reflexivity.
Defined.

Lemma onUpdate_offset_in_range_witness :
  offsetX (onUpdate (Sample.pan (-150) 0) Sample.swiping) == 450 /\
  validOffset Sample.swiping (offsetX (onUpdate (Sample.pan (-150) 0) Sample.swiping)) /\
  isPagerScrolling (onUpdate (Sample.pan (-150) 0) Sample.swiping) = true /\
  onUpdate (Sample.pan 400 0) Sample.swiping = Sample.swiping.
Proof.
  pose proof (onUpdate_offset_in_range (Sample.pan (-150) 0) Sample.swiping eq_refl)
    as H1.
  pose proof (onUpdate_offset_in_range (Sample.pan 400 0) Sample.swiping eq_refl)
    as H2.
  cbv zeta in H1, H2.
  destruct H1 as (_ & _ & Hwrite & _). destruct H2 as (_ & Hskip & _).
  assert (Hv : validOffset Sample.swiping
                 (tentativeOffset (Sample.pan (-150) 0) Sample.swiping)).
  { split; vm_compute; discriminate. }
  destruct (Hwrite ltac:(vm_compute; discriminate) eq_refl Hv) as (Ho & Hs & _).
  split; [|split; [|split]].
  - rewrite Ho. vm_compute. reflexivity.
  - rewrite Ho. exact Hv.
  - exact Hs.
  - apply Hskip. right. intros [H0 _]. vm_compute in H0. apply H0. reflexivity.
Defined.

Lemma zoomed_out_touch_move_witness :
  onTouchesMove (Sample.touch 200 100) (handleScaleChange true (8 # 10) Sample.mounted)
  = Some (emit StateActivate
            (set_panGestureActive true (handleScaleChange true (8 # 10) Sample.mounted))).
Proof.
  refine (proj1 (zoomed_out_touch_move true (8 # 10) (Sample.touch 200 100)
                   Sample.mounted _) eq_refl eq_refl (or_introl eq_refl)).
  vm_compute. reflexivity.
Defined.

(** Claim C2 as stated fails: with two touch points recorded (a finger that
    moved down), a reported scale of 0.8 and one more touch-move, the gesture
    is not activated and [state.activate()] is not called. *)
Lemma zoomed_out_two_touches_not_activated :
  run Sample.props true
      [TouchesMove (Sample.touch 200 100); TouchesMove (Sample.touch 201 140);
       ScaleChanged (8 # 10)]
      Sample.mounted
  = Some (handleScaleChange true (8 # 10) Sample.movedDown) /\
  scale (handleScaleChange true (8 # 10) Sample.movedDown) < 1 /\
  onTouchesMove (Sample.touch 150 141) (handleScaleChange true (8 # 10) Sample.movedDown)
  = Some (handleScaleChange true (8 # 10) Sample.movedDown) /\
  panGestureActive (handleScaleChange true (8 # 10) Sample.movedDown) = false /\
  ~ In StateActivate (effects (handleScaleChange true (8 # 10) Sample.movedDown)).
Proof.
  split; [vm_compute; reflexivity|]. split; [vm_compute; reflexivity|].
  split; [vm_compute; reflexivity|]. split; [vm_compute; reflexivity|].
  vm_compute. intros [H|[H|[]]]; discriminate.
Qed.

Lemma touch_move_blocked_by_scrolling_flag_witness :
  onTouchesMove (Sample.touch 10 10)
    (onTouchesUp (onUpdate (Sample.pan (-150) 0) Sample.swiping))
  = Some (onTouchesUp (onUpdate (Sample.pan (-150) 0) Sample.swiping)).
Proof.
  exact (proj1 (touch_move_blocked_by_scrolling_flag
                  (onTouchesUp (onUpdate (Sample.pan (-150) 0) Sample.swiping)))
               eq_refl (Sample.touch 10 10)).
Defined.

(** Claim C8 as stated fails: an arrow press starts an animation, and while it
    is in flight two touch samples of a horizontal move activate the pan
    gesture. *)
Lemma arrow_animation_does_not_block_activation :
  offsetXAnimation (cycleThroughAttachments 1 Sample.mounted)
  = Some (stepAnimation EasingInOutQuad Sample.mounted 1) /\
  isPagerScrolling (cycleThroughAttachments 1 Sample.mounted) = false /\
  run Sample.props true
      [ArrowPressed 1; TouchesMove (Sample.touch 200 100);
       TouchesMove (Sample.touch 180 101)]
      Sample.mounted
  = Some (emit StateActivate
            (set_panGestureActive true
               (set_secondTouch (Some {| x := 180; y := 101 |})
                  (set_firstTouch (Some {| x := 200; y := 100 |})
                     (cycleThroughAttachments 1 Sample.mounted))))) /\
  offsetXAnimation
    (emit StateActivate
       (set_panGestureActive true
          (set_secondTouch (Some {| x := 180; y := 101 |})
             (set_firstTouch (Some {| x := 200; y := 100 |})
                (cycleThroughAttachments 1 Sample.mounted)))))
  = Some (stepAnimation EasingInOutQuad Sample.mounted 1).
Proof.
  split; [vm_compute; reflexivity|]. split; [vm_compute; reflexivity|].
  split; vm_compute; reflexivity.
Qed.

Lemma step_variants_compared_witness :
  offsetX (cycleThroughAttachments 1 Sample.mounted)
  = JS.mul (containerWidth Sample.mounted) (inject_Z (page Sample.mounted)) /\
  offsetX (gotoAttachments 1 Sample.mounted) = offsetX Sample.mounted /\
  animationFinished (cycleThroughAttachments 1 Sample.mounted)
  = animationFinished (gotoAttachments 1 Sample.mounted).
Proof.
  assert (Ha : stepAllowed Sample.mounted 1).
  { split; [reflexivity|]. split; [reflexivity|]. vm_compute. split; discriminate. }
  destruct (proj2 (step_variants_compared Sample.mounted 1) Ha)
    as (_ & _ & Hg & Hc & _ & Hfin & _).
  exact (conj Hc (conj Hg Hfin)).
Defined.

(** Claim C9 as stated fails: on the freshly mounted carousel (page 1, offset
    still 0) the arrow-button step moves the offset to 300 before it
    animates, the post-gesture step leaves it at 0; the two resulting states
    differ in more than the easing curve. *)
Lemma step_variants_differ_in_offset :
  stepAllowed Sample.mounted 1 /\
  offsetX (cycleThroughAttachments 1 Sample.mounted) == 300 /\
  offsetX (gotoAttachments 1 Sample.mounted) == 0 /\
  withEasing EasingOutQuad (cycleThroughAttachments 1 Sample.mounted)
  <> withEasing EasingOutQuad (gotoAttachments 1 Sample.mounted).
Proof.
  split.
  { split; [reflexivity|]. split; [reflexivity|]. vm_compute. split; discriminate. }
  split; [vm_compute; reflexivity|]. split; [vm_compute; reflexivity|].
  intros H. apply (f_equal offsetX) in H. vm_compute in H. discriminate.
Qed.

Lemma retargeted_step_commits_witness :
  page (animationCancelled
          (cycleThroughAttachments (-1) (cycleThroughAttachments 1 Sample.mounted)))
  = 2%Z /\
  page (animationFinished
          (animationCancelled
             (cycleThroughAttachments (-1) (cycleThroughAttachments 1 Sample.mounted))))
  = 0%Z.
Proof.
  assert (Ha : forall d, (d = 1 \/ d = -1)%Z -> stepAllowed Sample.mounted d).
  { intros d [-> | ->]; (split; [reflexivity|]; split; [reflexivity|]);
      vm_compute; split; discriminate. }
  destruct (retargeted_step_commits Explicit Explicit 1 (-1) Sample.mounted
              (Ha 1%Z (or_introl eq_refl)) (Ha (-1)%Z (or_intror eq_refl))
              eq_refl eq_refl)
    as (_ & _ & _ & Hstale & _ & Hlast).
  exact (conj Hstale Hlast).
Defined.

(** Claim C5 as stated fails: forward then back pressed while the first
    animation runs. The animator calls the callback of the superseded
    animation and the page becomes 2, the stale target, although the newest
    animation heads for page 0. *)
Lemma superseded_callback_commits_stale_page :
  run Sample.props true [ArrowPressed 1; ArrowPressed (-1); AnimationCancelled]
      Sample.mounted
  = Some (animationCancelled
            (cycleThroughAttachments (-1) (cycleThroughAttachments 1 Sample.mounted))) /\
  option_map callback
    (offsetXAnimation
       (animationCancelled
          (cycleThroughAttachments (-1) (cycleThroughAttachments 1 Sample.mounted))))
  = Some (CommitPage 0) /\
  page (animationCancelled
          (cycleThroughAttachments (-1) (cycleThroughAttachments 1 Sample.mounted)))
  = 2%Z.
Proof.
  split; [vm_compute; reflexivity|]. split; vm_compute; reflexivity.
Qed.

(** The velocity-override scenario: translation -20, velocity -150 in a
    container 300 wide, on page 1 of 0..2. *)
Lemma onTouchesUp_commit_decision_witness :
  onTouchesUp (onUpdate (Sample.pan (-20) (-150)) Sample.swiping)
  = resetPan (gotoAttachments 1
      (clearTouches (onUpdate (Sample.pan (-20) (-150)) Sample.swiping))) /\
  page (animationFinished
          (onTouchesUp (onUpdate (Sample.pan (-20) (-150)) Sample.swiping)))
  = (page (onUpdate (Sample.pan (-20) (-150)) Sample.swiping) + 1)%Z.
Proof.
  assert (Hact : panGestureActive (onUpdate (Sample.pan (-20) (-150)) Sample.swiping)
                 = true) by (vm_compute; reflexivity).
  assert (Hscr : isPagerScrolling (onUpdate (Sample.pan (-20) (-150)) Sample.swiping)
                 = true) by (vm_compute; reflexivity).
  destruct (onTouchesUp_commit_decision
              (onUpdate (Sample.pan (-20) (-150)) Sample.swiping) Hact Hscr)
    as (Hnext & _ & _ & Hcommit & _).
  assert (Hrel : onTouchesUp (onUpdate (Sample.pan (-20) (-150)) Sample.swiping)
                 = resetPan (gotoAttachments 1
                     (clearTouches (onUpdate (Sample.pan (-20) (-150)) Sample.swiping)))).
  { apply Hnext; [right|]; vm_compute; reflexivity. }
  split; [exact Hrel|].
  refine (proj1 (proj2 (proj1 (Hcommit 1%Z Hrel) _))).
  split; [vm_compute; reflexivity|]. split; [vm_compute; reflexivity|].
  vm_compute. split; discriminate.
Defined.

(** Claim C1 as stated fails: the host enters full screen while the finger is
    down. At the release the translation is -150 in a container 300 wide, so
    the distance test passes and [gotoAttachments(1)] is called, but it
    returns at its full-screen guard: no animation is started, no callback is
    pending, and the page stays 1. *)
Lemma release_in_full_screen_commits_nothing :
  run Sample.props true
      [PanUpdate (Sample.pan (-150) 0); FullScreenChanged true; TouchesUp] Sample.swiping
  = Some (onTouchesUp Sample.swipedInFullScreen) /\
  panGestureActive Sample.swipedInFullScreen = true /\
  isPagerScrolling Sample.swipedInFullScreen = true /\
  releaseThreshold Sample.swipedInFullScreen /\
  translationX Sample.swipedInFullScreen < 0 /\
  offsetXAnimation (onTouchesUp Sample.swipedInFullScreen) = None /\
  cancelledCallbacks (onTouchesUp Sample.swipedInFullScreen) = [] /\
  page (onTouchesUp Sample.swipedInFullScreen) = 1%Z /\
  page (animationFinished (onTouchesUp Sample.swipedInFullScreen)) = 1%Z.
Proof.
  split; [vm_compute; reflexivity|]. split; [vm_compute; reflexivity|].
  split; [vm_compute; reflexivity|]. split; [left; vm_compute; reflexivity|].
  split; [vm_compute; reflexivity|]. split; [vm_compute; reflexivity|].
  split; [vm_compute; reflexivity|]. split; vm_compute; reflexivity.
Qed.

(** The deletion scenario: [A; B; C] stored, [B] requested, [A; C] derived. *)
Lemma attachmentsEffect_dismisses_witness :
  attachmentsEffect Sample.props [Sample.A; Sample.C] Sample.mounted
  = emit DismissModal Sample.mounted.
Proof.
  refine (proj1 (attachmentsEffect_dismisses Sample.props [Sample.A; Sample.C]
                   Sample.mounted _ _ _)).
  - vm_compute. reflexivity.
  - intros a [<- | [<- | []]]; discriminate.
  - exists Sample.B. split; [right; left; reflexivity | reflexivity].
Defined.

(** Claim C6 as stated fails: the stored list holds one attachment whose
    source is the object 1, the requested source; the derived list holds one
    attachment with a new object 2 of the same content. The requested source
    is in the stored list and in no attachment of the derived list, yet the
    two lists are structurally equal and the effect returns before it looks:
    nothing is dismissed. *)
Lemma content_equal_lists_do_not_dismiss :
  run Sample.objectProps true
      [AttachmentsDerived [Sample.O1]; Layout 300; ListRendered]
      (initialState Sample.objectProps true false)
  = Some Sample.showingObject /\
  (forall a, In a [Sample.O2] -> source a <> Props.source Sample.objectProps) /\
  (In Sample.O1 (attachments Sample.showingObject) /\
   source Sample.O1 = Props.source Sample.objectProps) /\
  attachmentsEffect Sample.objectProps [Sample.O2] Sample.showingObject
  = Sample.showingObject /\
  ~ In DismissModal
      (effects (attachmentsEffect Sample.objectProps [Sample.O2] Sample.showingObject)).
Proof.
  split; [vm_compute; reflexivity|]. split.
  { intros a [<- | []]. discriminate. }
  split; [split; [left; reflexivity | reflexivity]|].
  split; [vm_compute; reflexivity|].
  vm_compute. intros [H|[H|[]]]; discriminate.
Qed.

Lemma attachmentsEffect_same_data_witness :
  attachmentsEffect Sample.props [Sample.A; Sample.B; Sample.C] Sample.mounted
  = Sample.mounted /\
  attachmentsEffect Sample.props [Sample.C; Sample.B]
    (attachmentsEffect Sample.props [Sample.C; Sample.B] Sample.mounted)
  = attachmentsEffect Sample.props [Sample.C; Sample.B] Sample.mounted.
Proof.
  split.
  - apply (proj1 (attachmentsEffect_same_data Sample.props
                    [Sample.A; Sample.B; Sample.C] Sample.mounted)).
    vm_compute. reflexivity.
  - apply (proj1 (proj2 (attachmentsEffect_same_data Sample.props
                           [Sample.C; Sample.B] Sample.mounted))).
    + vm_compute. reflexivity.
    + left. exists Sample.B. split; [right; left; reflexivity | reflexivity].
Defined.

(** Claim C10 as stated fails: [A; B; C] stored, [B] requested, [A; C]
    derived. The first run dismisses and stores nothing; the recomputation
    from the same data is not a no-op, it calls [dismissModal] a second
    time. *)
Lemma recomputation_after_dismissal_dismisses_again :
  effects (attachmentsEffect Sample.props [Sample.A; Sample.C] Sample.mounted)
  = effects Sample.mounted ++ [DismissModal] /\
  effects (attachmentsEffect Sample.props [Sample.A; Sample.C]
             (attachmentsEffect Sample.props [Sample.A; Sample.C] Sample.mounted))
  = effects Sample.mounted ++ [DismissModal; DismissModal] /\
  attachmentsEffect Sample.props [Sample.A; Sample.C]
    (attachmentsEffect Sample.props [Sample.A; Sample.C] Sample.mounted)
  <> attachmentsEffect Sample.props [Sample.A; Sample.C] Sample.mounted.
Proof.
  split; [vm_compute; reflexivity|]. split; [vm_compute; reflexivity|].
  intros H. apply (f_equal effects) in H. vm_compute in H. discriminate.
Qed.

Lemma updatePage_cases_witness :
  updatePage Sample.props [] Sample.mounted
  = set_activeSource None (emit KeyboardDismiss Sample.mounted) /\
  page (updatePage Sample.props [ {| item := Sample.C; index := Some 2%Z |} ]
          Sample.mounted) = 2%Z.
Proof.
  destruct (updatePage_cases Sample.props [] Sample.mounted) as (_ & Hnone & _).
  destruct (updatePage_cases Sample.props [ {| item := Sample.C; index := Some 2%Z |} ]
              Sample.mounted) as (_ & _ & Hentry).
  split.
  - exact (Hnone eq_refl eq_refl).
  - exact (proj1 (proj1 (Hentry eq_refl _ _ eq_refl) 2%Z eq_refl)).
Defined.

Lemma attachmentsEffect_found_witness :
  attachments (attachmentsEffect Sample.props [Sample.C; Sample.B] Sample.mounted)
  = [Sample.C; Sample.B] /\
  (0 <= page (attachmentsEffect Sample.props [Sample.C; Sample.B] Sample.mounted)
     <= Z.of_nat (List.length [Sample.C; Sample.B]) - 1)%Z.
Proof.
  assert (Hd : isEqual (attachments Sample.mounted) [Sample.C; Sample.B] = false)
    by (vm_compute; reflexivity).
  assert (He : exists a, In a [Sample.C; Sample.B] /\
                         source a = Props.source Sample.props).
  { exists Sample.B. split; [right; left; reflexivity | reflexivity]. }
  destruct (attachmentsEffect_found Sample.props [Sample.C; Sample.B] Sample.mounted
              Hd He) as (H1 & H2 & _).
  exact (conj H1 H2).
Defined.

Lemma attachmentsEffect_not_found_witness :
  page (attachmentsEffect Sample.props [Sample.A]
          (set_attachments [Sample.C] Sample.mounted)) = (-1)%Z.
Proof.
  refine (proj1 (attachmentsEffect_not_found Sample.props [Sample.A]
                   (set_attachments [Sample.C] Sample.mounted) _ _ _)).
  - vm_compute. reflexivity.
  - intros a [<- | []]. discriminate.
  - intros a [<- | []]. discriminate.
Defined.

Lemma attachmentsEffect_second_run_witness :
  attachmentsEffect Sample.props [Sample.C; Sample.B]
    (attachmentsEffect Sample.props [Sample.C; Sample.B] Sample.mounted)
  = attachmentsEffect Sample.props [Sample.C; Sample.B] Sample.mounted.
Proof.
  apply (attachmentsEffect_second_run Sample.props [Sample.C; Sample.B] Sample.mounted).
  - vm_compute. intros [H|[H|[]]]; discriminate.
  - vm_compute. intros [H|[H|[H|[H|[]]]]]; discriminate.
Defined.

Lemma extractItemKey_collisions_witness :
  extractItemKey
    {| source := SourceObject 1; reportActionID := None; displayName := "x" |} 0
  = extractItemKey
      {| source := SourceObject 2; reportActionID := None; displayName := "y" |} 5.
Proof.
  exact (proj2 (proj2 (proj2
           (extractItemKey_collisions
              {| source := SourceObject 1; reportActionID := None; displayName := "x" |}
              {| source := SourceObject 2; reportActionID := None; displayName := "y" |}
              0 5)))
           1%positive 2%positive eq_refl eq_refl eq_refl eq_refl).
Defined.

Lemma updatePage_focus_witness :
  isFocused (updatePage Sample.props [] Sample.mounted) Sample.B = false.
Proof.
  exact (proj1 (updatePage_focus Sample.props Sample.mounted eq_refl) Sample.B).
Defined.

Lemma Sample_step_allowed (d : Z) : (-1 <= d <= 1)%Z -> stepAllowed Sample.mounted d.
Proof.
  intros Hd. split; [reflexivity|]. split; [reflexivity|].
  unfold validTarget. change (page Sample.mounted) with 1%Z.
  change (Z.of_nat (List.length (attachments Sample.mounted))) with 3%Z. lia.
Qed.

Lemma Sample_step_allowed_swiping (d : Z) :
  (-1 <= d <= 1)%Z -> stepAllowed Sample.swiping d.
Proof. exact (Sample_step_allowed d). Qed.

Lemma step_finishes_at_rest_witness :
  page (animationFinished (stepPage Explicit 1 Sample.mounted)) = (1 + 1)%Z.
Proof.
  exact (proj1 (step_finishes_at_rest Explicit Sample.mounted 1
                  (Sample_step_allowed 1 ltac:(lia)))).
Defined.

Lemma arrow_there_and_back_witness :
  page (animationFinished
          (cycleThroughAttachments (- 1)
             (animationFinished (cycleThroughAttachments 1 Sample.mounted))))
  = page Sample.mounted.
Proof.
  exact (proj1 (arrow_there_and_back Sample.mounted 1
                  (Sample_step_allowed 1 ltac:(lia))
                  (proj2 (proj2 (Sample_step_allowed 0 ltac:(lia)))))).
Defined.



Lemma short_swipe_snaps_back_witness :
  page (animationFinished (onTouchesUp (onUpdate (Sample.pan (-50) 0) Sample.swiping)))
  = page Sample.swiping.
Proof.
  refine (proj1 (short_swipe_snaps_back (Sample.pan (-50) 0) Sample.swiping
                   eq_refl (Sample_step_allowed_swiping 0 ltac:(lia)) eq_refl eq_refl
                   _ _ _)).
  - vm_compute. discriminate.
  - split; vm_compute; discriminate.
  - intros [H|H]; vm_compute in H; discriminate.
Defined.

Lemma arbiter_consistent_on_runs_witness :
  secondTouch Sample.mounted = None.
Proof.
  exact (proj2 (arbiter_consistent_on_runs Sample.props true false
                  [AttachmentsDerived [Sample.A; Sample.B; Sample.C]; Layout 300;
                   ListRendered]
                  Sample.mounted Sample_mounted_reached) eq_refl).
Defined.

Lemma scroll_enabled_tracks_scale_witness :
  isScrollEnabled Sample.mounted = JS.eq (scale Sample.mounted) 1 && true.
Proof.
  exact (proj1 (scroll_enabled_tracks_scale Sample.props true false
                  [AttachmentsDerived [Sample.A; Sample.B; Sample.C]; Layout 300;
                   ListRendered]
                  Sample.mounted Sample_mounted_reached)).
Defined.

Lemma onUpdates_keep_offset_valid_witness :
  page (onUpdates [Sample.pan (-20) 0; Sample.pan (-400) 0; Sample.pan 900 50]
          Sample.swiping) = page Sample.swiping.
Proof.
  refine (proj1 (proj2 (onUpdates_keep_offset_valid
                          [Sample.pan (-20) 0; Sample.pan (-400) 0; Sample.pan 900 50]
                          Sample.swiping _))).
  split; vm_compute; discriminate.
Defined.

Lemma second_sample_decides_witness :
  onTouchesMove (Sample.touch 201 140)
    (set_firstTouch (Some {| x := 200; y := 100 |}) Sample.mounted)
  = Some (set_secondTouch (Some {| x := 201; y := 140 |})
            (set_firstTouch (Some {| x := 200; y := 100 |}) Sample.mounted)).
Proof.
  refine (proj2 (second_sample_decides (Sample.touch 201 140)
                   (set_firstTouch (Some {| x := 200; y := 100 |}) Sample.mounted)
                   {| x := 200; y := 100 |} {| x := 201; y := 140 |}
                   eq_refl eq_refl eq_refl eq_refl _ eq_refl) _).
  - vm_compute. reflexivity.
  - vm_compute. discriminate.
Defined.

Lemma touch_move_without_activation_witness :
  panGestureActive (set_firstTouch (Some {| x := 200; y := 100 |}) Sample.mounted)
  = panGestureActive Sample.mounted.
Proof.
  refine (proj1 (touch_move_without_activation (Sample.touch 200 100) Sample.mounted
                   (set_firstTouch (Some {| x := 200; y := 100 |}) Sample.mounted)
                   _ eq_refl)).
  right. split; [reflexivity|]. split; [reflexivity|]. vm_compute. discriminate.
Defined.

Lemma refused_release_keeps_flag_witness :
  isPagerScrolling
    (onTouchesUp (set_isFullScreen true (onUpdate (Sample.pan (-150) 0) Sample.swiping)))
  = true.
Proof.
  refine (proj1 (proj2 (refused_release_keeps_flag
                          (set_isFullScreen true
                             (onUpdate (Sample.pan (-150) 0) Sample.swiping))
                          eq_refl eq_refl _))).
  intros d (Hf & _). vm_compute in Hf. discriminate.
Defined.
